(** * okec: task dispatching at the base stations

    A shallow embedding of [src/base_station.cc]: the dispatching record kept
    by [base_station_container], its bounds-checked accessors, and the two
    message handlers of [base_station] ([on_dispatching_message] and
    [on_offloading_message]), followed by the properties the specification
    states about them. *)

From stdpp Require Import base option list gmap strings pretty.
From Stdlib Require Import ZArith NArith.

Local Open Scope string_scope.
Local Open Scope list_scope.
Local Open Scope nat_scope.

(** ** Data *)

(** [ns3::Ipv4Address] wraps a 32-bit unsigned value and a port is a
    [uint16_t]; neither is ever computed with here, only compared and copied. *)
Definition Ipv4Address := N.
Definition port_t := N.

(** A task as the handlers read it: [t->id()], [t->needed_cpu_cycles()],
    [t->needed_memory()], [t->budget()]. *)
Record task := Task {
  id : string;
  needed_cpu_cycles : Z;
  needed_memory : Z;
  budget : Z
}.

(** An edge device as the handlers read it: [device->get_address()],
    [device->get_port()], [device->free_cpu_cycles()],
    [device->free_memory()], [device->price()]. *)
Record edge_device := EdgeDevice {
  dev_address : Ipv4Address;
  dev_port : port_t;
  free_cpu_cycles : Z;
  free_memory : Z;
  price : Z
}.

(** The message type tags of [message.h] that [base_station.cc] names. *)
Inductive message_type :=
| message_dispatching
| message_handling
| message_dispatching_success
| message_dispatching_failure
| message_offloading_task.

(** A message carries a type tag and a task; [msg.type(x)] overwrites the
    tag and [msg.to_task()] reads the task. *)
Record message := Message {
  msg_type : message_type;
  to_task : task
}.

Definition type (x : message_type) (msg : message) : message :=
  {| msg_type := x; to_task := to_task msg |}.

(** A packet is the wire form of a message: [message::from_packet] decodes
    what [to_packet] encoded. *)
Record Packet := to_packet { from_packet : message }.

(** One call of [udp_application::write(packet, destination, port)]. *)
Record datagram := Datagram {
  payload : Packet;
  destination : Ipv4Address;
  destination_port : port_t
}.

(** A base station: its own address and port, the edge devices connected by
    [connect_device], and the cloud server linked by [link_cloud].  The
    back pointer [m_base_stations] to the owning container is not a field:
    the handlers below read the container from the state they run in. *)
Record base_station := BaseStation {
  get_address : Ipv4Address;
  get_port : port_t;
  m_edge_devices : list edge_device;
  m_cs_address : Ipv4Address * port_t
}.

(** ** The dispatching record

    [m_dispatching_record] is declared in [base_station.h]; the member
    functions called on it ([emplace] of a key and a value, [equal_range]
    walked entry by entry, [erase] by key) are those of a standard multimap
    from task id to base-station address.  It is kept as a finite map from
    the key to the values of its equal range, in insertion order; a key with
    no entry is absent. *)
Abbreviation multimap := (gmap string (list string)).

Definition equal_range (key : string) (m : multimap) : list string :=
  default [] (m !! key).

(** [emplace] of a multimap always inserts a new entry. *)
Definition emplace (key value : string) (m : multimap) : multimap :=
  <[key := equal_range key m ++ [value]]> m.

(** [erase(key)] removes every entry with that key. *)
Definition erase (key : string) (m : multimap) : multimap :=
  delete key m.

(** ** base_station_container *)

Record base_station_container := Container {
  m_base_stations : list base_station;
  m_dispatching_record : multimap
}.

Definition size (c : base_station_container) : N :=
  N.of_nat (length (m_base_stations c)).

(** What an indexed access does: it returns an element, it throws
    [std::out_of_range], or it reads the vector past its end, which C++
    leaves undefined. *)
Inductive access (A : Type) :=
| returned (a : A)
| out_of_range
| undefined_behaviour.
Arguments returned {A} a.
Arguments out_of_range {A}.
Arguments undefined_behaviour {A}.

(** [CHECK_INDEX(index)] is [if (index > size()) throw std::out_of_range],
    followed in [get] by [return m_base_stations[index]]. *)
Definition get (c : base_station_container) (index : N) : access base_station :=
  if (size c <? index)%N then out_of_range
  else match m_base_stations c !! N.to_nat index with
       | Some bs => returned bs
       | None => undefined_behaviour
       end.

Definition subscript (c : base_station_container) (index : N) : access base_station :=
  get c index.

Definition call (c : base_station_container) (index : N) : access base_station :=
  get c index.

Definition dispatching_record (task_id bs_ip : string)
    (c : base_station_container) : base_station_container :=
  {| m_base_stations := m_base_stations c;
     m_dispatching_record := emplace task_id bs_ip (m_dispatching_record c) |}.

(** The loop of [dispatched] over the equal range: [false] at the first
    entry whose value is [bs_ip], [true] when the range is exhausted. *)
Fixpoint dispatched_range (records : list string) (bs_ip : string) : bool :=
  match records with
  | [] => true
  | second :: rest =>
      if bool_decide (second = bs_ip) then false
      else dispatched_range rest bs_ip
  end.

Definition dispatched (task_id bs_ip : string) (c : base_station_container) : bool :=
  dispatched_range (equal_range task_id (m_dispatching_record c)) bs_ip.

Definition erase_dispatching_record (task_id : string)
    (c : base_station_container) : base_station_container :=
  {| m_base_stations := m_base_stations c;
     m_dispatching_record := erase task_id (m_dispatching_record c) |}.

(** The specification's reading of the lookup, for comparison with
    [dispatched]: a station has already been tried for a task when its
    address is among those recorded for the task id. *)
Definition already_tried_spec (task_id station_id : string)
    (c : base_station_container) : bool :=
  bool_decide (station_id ∈ equal_range task_id (m_dispatching_record c)).

(** ** The state the handlers run in

    A handler of a base station reads and updates the container its
    [m_base_stations] pointer refers to, which every station of the
    container shares, and writes datagrams through its UDP application.
    [network] lists the datagrams written, oldest first. *)
Record simulation := Simulation {
  base_stations : base_station_container;
  network : list datagram
}.

Definition action (A : Type) : Type := simulation → A * simulation.

#[global] Instance action_ret : MRet action := λ A a s, (a, s).
#[global] Instance action_bind : MBind action :=
  λ A B f m s, let r := m s in f r.1 r.2.

(** [m_base_stations->f(...)] for a member function that updates the
    container, and for one that only reads it. *)
Definition update (f : base_station_container → base_station_container) : action unit :=
  λ s, (tt, {| base_stations := f (base_stations s); network := network s |}).

Definition query {A : Type} (f : base_station_container → A) : action A :=
  λ s, (f (base_stations s), s).

(** [m_udp_application->write(packet, destination, port)]. *)
Definition write (packet : Packet) (dest : Ipv4Address) (port : port_t) : action unit :=
  λ s, (tt, {| base_stations := base_stations s;
               network := network s ++ [Datagram packet dest port] |}).

(** [std::find_if(first, last, pred)]: the first element on which [pred]
    answers [true], or the end of the range. *)
Fixpoint find_if {A : Type} (pred : A → action bool) (range : list A) : action (option A) :=
  match range with
  | [] => mret None
  | x :: rest =>
      pred x ≫= λ found : bool,
      if found then mret (Some x) else find_if pred rest
  end.

(** ** base_station *)

Section base_station.

(** [fmt::format("{:ip}", address)], the text the dispatching record stores
    for a base station; the formatter is defined in [format_helper.hpp]. *)
Variable format_ip : Ipv4Address → string.

(** [has_free_resource]: does some connected device satisfy the task? *)
Fixpoint has_free_resource_from (devices : list edge_device) (t : task) : bool :=
  match devices with
  | [] => false
  | device :: rest =>
      if (free_cpu_cycles device >? needed_cpu_cycles t)%Z &&
         (free_memory device >? needed_memory t)%Z &&
         (price device <=? budget t)%Z
      then true
      else has_free_resource_from rest t
  end.

Definition has_free_resource (this : base_station) (t : task) : bool :=
  has_free_resource_from (m_edge_devices this) t.

Definition base_station_dispatching_record (this : base_station) (task_id : string) : action unit :=
  update (dispatching_record task_id (format_ip (get_address this))).

(** The device loop of [on_dispatching_message]; the result is [handled]
    as the loop leaves it. *)
Fixpoint dispatching_devices (this : base_station) (msg : message) (t : task)
    (devices : list edge_device) : action bool :=
  match devices with
  | [] => mret false
  | device :: rest =>
      if (free_cpu_cycles device >? needed_cpu_cycles t)%Z &&
         (free_memory device >? needed_memory t)%Z &&
         (price device <=? budget t)%Z
      then
        let msg := type message_handling msg in
        write (to_packet msg) (dev_address device) (dev_port device);;
        let msg := type message_dispatching_success msg in
        write (to_packet msg) (m_cs_address this).1 (m_cs_address this).2;;
        mret true
      else dispatching_devices this msg t rest
  end.

(** [edge_device_container::get_device(index)], declared in
    [edge_device.h] over the vector [m_devices] and defined outside these
    sources: the device at [index].  Where the vector has no element at
    [index] there is no device whose address could be read, and a caller
    that asks for one does not go on. *)
Definition get_device (m_devices : list edge_device) (index : N) : option edge_device :=
  m_devices !! N.to_nat index.

(** [on_dispatching_message].  Its first log line, ahead of every write,
    evaluates [m_edge_devices->get_device(0)->get_address()] as an argument
    on every call, although the format string has no field for it.  The
    result is [Some tt] when the call returns and [None] when it stops
    there, with nothing written.  What the log lines print is left out,
    and with it [remote_address], which only they read. *)
Definition on_dispatching_message (this : base_station) (packet : Packet) :
    action (option unit) :=
  match get_device (m_edge_devices this) 0 with
  | None => mret None
  | Some device0 =>
      let msg := from_packet packet in
      let t := to_task msg in
      dispatching_devices this msg t (m_edge_devices this) ≫= λ handled : bool,
      (if negb handled then
         let msg := type message_dispatching_failure msg in
         write (to_packet msg) (m_cs_address this).1 (m_cs_address this).2
       else mret tt);;
      mret (Some tt)
  end.

(** The device loop of [on_offloading_message]. *)
Fixpoint offloading_devices (this : base_station) (msg : message) (t : task)
    (devices : list edge_device) : action bool :=
  match devices with
  | [] => mret false
  | device :: rest =>
      if (free_cpu_cycles device >? needed_cpu_cycles t)%Z &&
         (free_memory device >? needed_memory t)%Z &&
         (price device <=? budget t)%Z
      then
        let msg := type message_handling msg in
        write (to_packet msg) (dev_address device) (dev_port device);;
        update (erase_dispatching_record (id t));;
        mret true
      else offloading_devices this msg t rest
  end.

(** The lambda [non_dispatched_bs]: it returns what [dispatched] returns
    for the station's formatted address. *)
Definition non_dispatched_bs (t : task) (bs : base_station) : action bool :=
  query (dispatched (id t) (format_ip (get_address bs))).

(** [on_offloading_message], log lines left out as above. *)
Definition on_offloading_message (this : base_station) (packet : Packet) : action unit :=
  let msg := from_packet packet in
  let t := to_task msg in
  offloading_devices this msg t (m_edge_devices this) ≫= λ handled : bool,
  if negb handled then
    update (dispatching_record (id t) (format_ip (get_address this)));;
    range ← query m_base_stations;
    find_if (non_dispatched_bs t) range ≫= λ it : option base_station,
    match it with
    | Some bs => write packet (get_address bs) (get_port bs)
    | None =>
        let msg := type message_handling msg in
        write (to_packet msg) (m_cs_address this).1 (m_cs_address this).2;;
        update (erase_dispatching_record (id t))
    end
  else mret tt.

End base_station.

(** ** The transport between handler calls

    The UDP application of a node calls the handler registered for the type
    of a message it receives.  A datagram is delivered to the node bound to
    its destination address and port: an offloading message that reaches a
    base station of the container is handled by [on_offloading_message]
    there (the registration for [message_offloading_task] that the
    constructor keeps in a comment); every other datagram (a handling
    message for a device or for the cloud, a notice for the cloud) leaves
    the base stations. *)
Section offloading.

Variable format_ip : Ipv4Address → string.

Definition bound_to (dg : datagram) (bs : base_station) : bool :=
  bool_decide (get_address bs = destination dg ∧ get_port bs = destination_port dg).

Definition receiver (c : base_station_container) (dg : datagram) : option base_station :=
  match msg_type (from_packet (payload dg)) with
  | message_offloading_task => List.find (bound_to dg) (m_base_stations c)
  | _ => None
  end.

(** What a handler call that took the state from [s] to [s'] wrote. *)
Definition written (s s' : simulation) : list datagram :=
  drop (length (network s)) (network s').

(** The base station that handles the task next, if the call forwarded it
    to one, and the packet it receives. *)
Definition forwarded (s s' : simulation) : option (base_station * Packet) :=
  dg ← head (written s s');
  bs ← receiver (base_stations s') dg;
  Some (bs, payload dg).

(** Repeated application of the offload handling step, at most [steps]
    times: the stations that handled the task, in order, and the state the
    last of them left, or [None] if the task is still between base stations
    after [steps] calls. *)
Fixpoint offloading (steps : nat) (this : base_station) (packet : Packet)
    (s : simulation) : option (list base_station * simulation) :=
  match steps with
  | 0 => None
  | S steps =>
      let s' := (on_offloading_message format_ip this packet s).2 in
      match forwarded s s' with
      | None => Some ([this], s')
      | Some (next, packet') =>
          match offloading steps next packet' s' with
          | Some (path, s'') => Some (this :: path, s'')
          | None => None
          end
      end
  end.

(** The states of the offload protocol for the task of [packet0], first
    handled by [this0] in state [s0]: [visited] are the stations that have
    handled the task without a match, [this] is the station about to handle
    [packet] in state [s].  Between two steps any station may handle an
    offloading message of a task with another id. *)
Inductive reachable (this0 : base_station) (packet0 : Packet) (s0 : simulation) :
    list base_station → base_station → Packet → simulation → Prop :=
| reachable_start :
    reachable this0 packet0 s0 [] this0 packet0 s0
| reachable_forward visited this packet s next packet' :
    reachable this0 packet0 s0 visited this packet s →
    forwarded s (on_offloading_message format_ip this packet s).2 = Some (next, packet') →
    reachable this0 packet0 s0 (visited ++ [this]) next packet'
      (on_offloading_message format_ip this packet s).2
| reachable_other visited this packet s other packet' :
    reachable this0 packet0 s0 visited this packet s →
    id (to_task (from_packet packet')) ≠ id (to_task (from_packet packet0)) →
    reachable this0 packet0 s0 visited this packet
      (on_offloading_message format_ip other packet' s).2.

End offloading.

(** ** The matching condition as the specification words it *)

Definition satisfies_spec (o : edge_device) (t : task) : Prop :=
  (free_cpu_cycles o > needed_cpu_cycles t)%Z ∧
  (free_memory o > needed_memory t)%Z ∧
  (price o ≤ budget t)%Z.

(** The test the three device loops make, named for the proofs. *)
Definition fits (t : task) (device : edge_device) : bool :=
  (free_cpu_cycles device >? needed_cpu_cycles t)%Z &&
  (free_memory device >? needed_memory t)%Z &&
  (price device <=? budget t)%Z.

(** The stations of the container that [dispatched] still answers [true]
    for, under a task id: the measure of the forwarding search. *)
Definition pending (format_ip : Ipv4Address → string) (task_id : string)
    (c : base_station_container) : list base_station :=
  List.filter (λ bs, dispatched task_id (format_ip (get_address bs)) c)
    (m_base_stations c).

(** The datagrams a handler writes. *)
Definition handle_at (msg : message) (device : edge_device) : datagram :=
  Datagram (to_packet (type message_handling msg)) (dev_address device) (dev_port device).

Definition to_cloud (x : message_type) (msg : message) (this : base_station) : datagram :=
  Datagram (to_packet (type x msg)) (m_cs_address this).1 (m_cs_address this).2.

Definition forward_to (packet : Packet) (bs : base_station) : datagram :=
  Datagram packet (get_address bs) (get_port bs).

(** The task of [packet] has left the base stations at [this]: the last
    datagram written is a handling message that carries it, addressed to a
    device of [this] that satisfies it or to the cloud server of [this]. *)
Definition resolved (this : base_station) (packet : Packet) (s : simulation) : Prop :=
  let msg := from_packet packet in
  ∃ dg, last (network s) = Some dg ∧
        payload dg = to_packet (type message_handling msg) ∧
        ((destination dg, destination_port dg) = m_cs_address this ∨
         ∃ o, o ∈ m_edge_devices this ∧ satisfies_spec o (to_task msg) ∧
              destination dg = dev_address o ∧ destination_port dg = dev_port o).

(** ** A deployment to run the handlers on

    Three base stations without a device that could take the task, one
    cloud server, and the dotted-decimal text of an address. *)
Module deployment.

Definition dotted (a : Ipv4Address) : string :=
  let octet (shift : N) : string := pretty ((a `div` shift) `mod` 256)%N in
  octet 16777216%N +:+ "." +:+ octet 65536%N +:+ "." +:+ octet 256%N +:+ "." +:+ octet 1%N.

Definition cloud : Ipv4Address * port_t := (167772417%N, 8860%N).

Definition weak : edge_device :=
  {| dev_address := 167837953%N; dev_port := 8860%N;
     free_cpu_cycles := 8; free_memory := 10; price := 50 |}.

Definition strong : edge_device :=
  {| dev_address := 167837954%N; dev_port := 8860%N;
     free_cpu_cycles := 20; free_memory := 10; price := 50 |}.

Definition A : base_station :=
  {| get_address := 167772673%N; get_port := 8860%N;
     m_edge_devices := [weak]; m_cs_address := cloud |}.

Definition B : base_station :=
  {| get_address := 167772674%N; get_port := 8860%N;
     m_edge_devices := []; m_cs_address := cloud |}.

Definition C : base_station :=
  {| get_address := 167772675%N; get_port := 8860%N;
     m_edge_devices := [weak]; m_cs_address := cloud |}.

Definition D : base_station :=
  {| get_address := 167772676%N; get_port := 8860%N;
     m_edge_devices := [weak; strong]; m_cs_address := cloud |}.

Definition stations : base_station_container :=
  {| m_base_stations := [A; B; C]; m_dispatching_record := ∅ |}.

Definition idle : simulation :=
  {| base_stations := stations; network := [] |}.

Definition t1 : task :=
  {| id := "t1"; needed_cpu_cycles := 10; needed_memory := 5; budget := 100 |}.

Definition t2 : task :=
  {| id := "t2"; needed_cpu_cycles := 10; needed_memory := 5; budget := 100 |}.

Definition offload (t : task) : Packet :=
  to_packet {| msg_type := message_offloading_task; to_task := t |}.

Definition request (t : task) : Packet :=
  to_packet {| msg_type := message_dispatching; to_task := t |}.

End deployment.

(** ** The rest of base_station and of its container *)

(** [base_station::erase_dispatching_record] and [base_station::dispatched]
    pass their arguments on to the container the station points to. *)
Definition base_station_erase_dispatching_record (this : base_station)
    (task_id : string) : action unit :=
  update (erase_dispatching_record task_id).

Definition base_station_dispatched (this : base_station)
    (task_id bs_ip : string) : action bool :=
  query (dispatched task_id bs_ip).

(** [base_station::detach(pred, yes, no)]: [yes] is called with the address
    and port of the first station of the container that [pred] accepts,
    and [no] with the cloud address when it accepts none. *)
Definition detach (this : base_station) (pred : base_station → action bool)
    (yes no : Ipv4Address → port_t → action unit) : action unit :=
  query m_base_stations ≫= λ range : list base_station,
  find_if pred range ≫= λ it : option base_station,
  match it with
  | Some bs => yes (get_address bs) (get_port bs)
  | None => no (m_cs_address this).1 (m_cs_address this).2
  end.

(** A cloud server as [link_cloud] reads it: [cs.get_address()], whether
    that address [IsInitialized()], and [cs.get_port()]. *)
Record cloud_server := CloudServer {
  cs_get_address : Ipv4Address;
  cs_IsInitialized : bool;
  cs_get_port : port_t
}.

(** A call either returns or ends the process with [exit(status)]. *)
Inductive process (A : Type) :=
| returns (a : A)
| exits (status : Z).
Arguments returns {A} a.
Arguments exits {A} status.

(** [base_station::link_cloud]: [exit(0)] after an error message when the
    address of the cloud server is not initialized, otherwise
    [m_cs_address = std::make_pair(cs.get_address(), cs.get_port())]. *)
Definition base_station_link_cloud (this : base_station) (cs : cloud_server) :
    process base_station :=
  if negb (cs_IsInitialized cs) then exits 0
  else returns {| get_address := get_address this;
                  get_port := get_port this;
                  m_edge_devices := m_edge_devices this;
                  m_cs_address := (cs_get_address cs, cs_get_port cs) |}.

(** [std::ranges::for_each(m_base_stations, bs->link_cloud(cs))]. *)
Fixpoint for_each_link_cloud (range : list base_station) (cs : cloud_server) :
    process (list base_station) :=
  match range with
  | [] => returns []
  | bs :: rest =>
      match base_station_link_cloud bs cs with
      | exits status => exits status
      | returns bs' =>
          match for_each_link_cloud rest cs with
          | exits status => exits status
          | returns rest' => returns (bs' :: rest')
          end
      end
  end.

(** [base_station_container::link_cloud]. *)
Definition link_cloud (c : base_station_container) (cs : cloud_server) :
    process base_station_container :=
  match for_each_link_cloud (m_base_stations c) cs with
  | exits status => exits status
  | returns range =>
      returns {| m_base_stations := range;
                 m_dispatching_record := m_dispatching_record c |}
  end.

(** [base_station_container::base_station_container(n)]: [n] times, a
    station is made and placed at the back of [m_base_stations]; the
    dispatching record starts empty.  What [std::make_shared<base_station>()]
    yields at the i-th round depends on the simulator and is a parameter. *)
Section construction.

Variable make_shared : nat → base_station.

Fixpoint emplace_back_from (i rounds : nat) (range : list base_station) :
    list base_station :=
  match rounds with
  | 0 => range
  | S rounds => emplace_back_from (S i) rounds (range ++ [make_shared i])
  end.

Definition base_station_container_of (n : N) : base_station_container :=
  {| m_base_stations := emplace_back_from 0 (N.to_nat n) [];
     m_dispatching_record := ∅ |}.

End construction.

(** The cloud server of the deployment, before and after its network is
    installed. *)
Module cloud_servers.

Definition installed : cloud_server :=
  {| cs_get_address := 167772417%N; cs_IsInitialized := true; cs_get_port := 8860%N |}.

Definition fresh : cloud_server :=
  {| cs_get_address := 0%N; cs_IsInitialized := false; cs_get_port := 8860%N |}.

End cloud_servers.

(** * Properties *)

(** ** The dispatching record *)

Lemma equal_range_emplace key value key' (m : multimap) :
  equal_range key' (emplace key value m) =
  if decide (key = key') then equal_range key m ++ [value] else equal_range key' m.
Proof.
  unfold equal_range, emplace. case_decide as Hk.
  - subst key'. by rewrite lookup_insert_eq.
  - by rewrite lookup_insert_ne.
Qed.

Lemma equal_range_erase key key' (m : multimap) :
  equal_range key' (erase key m) =
  if decide (key = key') then [] else equal_range key' m.
Proof.
  unfold equal_range, erase. case_decide as Hk.
  - subst key'. by rewrite lookup_delete_eq.
  - by rewrite lookup_delete_ne.
Qed.

Lemma dispatched_range_true records bs_ip :
  dispatched_range records bs_ip = true ↔ bs_ip ∉ records.
Proof.
  induction records as [|second rest IH]; simpl.
  - split; [intros _; apply not_elem_of_nil | done].
  - rewrite not_elem_of_cons. case_bool_decide as Heq.
    + split; [done | intros [Hne _]; by subst].
    + rewrite IH. split; [intros ?; split; [congruence | done] | by intros [_ ?]].
Qed.

Lemma dispatched_range_false records bs_ip :
  dispatched_range records bs_ip = false ↔ bs_ip ∈ records.
Proof.
  rewrite <- not_true_iff_false, dispatched_range_true.
  destruct (decide (bs_ip ∈ records)); naive_solver.
Qed.

Lemma dispatched_range_app records records' bs_ip :
  dispatched_range (records ++ records') bs_ip =
  dispatched_range records bs_ip && dispatched_range records' bs_ip.
Proof.
  induction records as [|second rest IH]; simpl; [done|].
  by case_bool_decide.
Qed.

Lemma dispatched_recorded task_id bs_ip c :
  dispatched task_id bs_ip (dispatching_record task_id bs_ip c) = false.
Proof.
  unfold dispatched, dispatching_record; simpl.
  rewrite equal_range_emplace, decide_True by done.
  apply dispatched_range_false, elem_of_app. right. apply list_elem_of_singleton. done.
Qed.

(** Recording never makes a recorded address unrecorded. *)
Lemma dispatched_record_mono task_id bs_ip task_id' bs_ip' c :
  dispatched task_id' bs_ip' c = false →
  dispatched task_id' bs_ip' (dispatching_record task_id bs_ip c) = false.
Proof.
  unfold dispatched, dispatching_record; simpl.
  rewrite equal_range_emplace. case_decide as Hk; [subst task_id'|done].
  rewrite dispatched_range_app. by intros ->.
Qed.

(** C4, as the code has it: [dispatched] answers [true] exactly when the
    station address is not among the addresses recorded for the task id,
    and [false] exactly when it is; it is the negation of the
    specification's [already_tried]. *)
Theorem dispatched_iff_not_recorded task_id station_id c :
  (dispatched task_id station_id c = true ↔
     station_id ∉ equal_range task_id (m_dispatching_record c)) ∧
  (dispatched task_id station_id c = false ↔
     station_id ∈ equal_range task_id (m_dispatching_record c)) ∧
  dispatched task_id station_id c = negb (already_tried_spec task_id station_id c).
Proof.
  unfold dispatched, already_tried_spec.
  split; [apply dispatched_range_true|]. split; [apply dispatched_range_false|].
  case_bool_decide as Hin; simpl.
  - by apply dispatched_range_false.
  - by apply dispatched_range_true.
Qed.

(** C4 fails as stated: with 10.0.2.1 recorded for t1, the lookup for
    that pair answers [false], and for the unrecorded 10.0.2.2 it answers
    [true]. *)
Lemma dispatched_true_iff_recorded_fails :
  "10.0.2.1" ∈ equal_range "t1" (m_dispatching_record
     (dispatching_record "t1" "10.0.2.1" deployment.stations)) ∧
  dispatched "t1" "10.0.2.1"
    (dispatching_record "t1" "10.0.2.1" deployment.stations) = false ∧
  ("10.0.2.2" ∉ equal_range "t1" (m_dispatching_record
     (dispatching_record "t1" "10.0.2.1" deployment.stations))) ∧
  dispatched "t1" "10.0.2.2"
    (dispatching_record "t1" "10.0.2.1" deployment.stations) = true.
Proof.
  split; [|split; [|split]].
  - apply dispatched_range_false. by vm_compute.
  - by vm_compute.
  - apply dispatched_range_true. by vm_compute.
  - by vm_compute.
Qed.

(** C5, as the code has it: [dispatching_record] appends one entry for the
    pair under the task id (creating the range when the id had none) and
    touches no other id, so the address is stored once more at every call;
    a repeated record of the same pair changes the answer of no lookup. *)
Theorem dispatching_record_appends task_id station_id c :
  let c1 := dispatching_record task_id station_id c in
  let c2 := dispatching_record task_id station_id c1 in
  equal_range task_id (m_dispatching_record c1) =
    equal_range task_id (m_dispatching_record c) ++ [station_id] ∧
  equal_range task_id (m_dispatching_record c2) =
    equal_range task_id (m_dispatching_record c) ++ [station_id; station_id] ∧
  (∀ other, other ≠ task_id →
     equal_range other (m_dispatching_record c1) =
     equal_range other (m_dispatching_record c)) ∧
  dispatched task_id station_id c1 = false ∧
  (∀ task_id' bs_ip, dispatched task_id' bs_ip c2 = dispatched task_id' bs_ip c1) ∧
  m_base_stations c1 = m_base_stations c.
Proof.
  simpl. repeat split.
  - by rewrite equal_range_emplace, decide_True.
  - rewrite !equal_range_emplace, !decide_True by done. by rewrite <- app_assoc.
  - intros other Hne. by rewrite equal_range_emplace, decide_False.
  - apply dispatched_recorded.
  - intros task_id' bs_ip. unfold dispatched; simpl.
    rewrite (equal_range_emplace _ _ task_id' (emplace _ _ _)).
    case_decide as Hk; [subst task_id'|done].
    rewrite dispatched_range_app; simpl.
    case_bool_decide as Heq; [|by rewrite andb_true_r].
    subst bs_ip. rewrite andb_false_r.
    symmetry. apply (dispatched_recorded task_id station_id c).
Qed.

(** C5 fails as stated: recording 10.0.2.1 for t1 twice stores the address
    twice, and the record after the second call differs from the record
    after the first. *)
Lemma dispatching_record_twice_stores_twice :
  equal_range "t1" (m_dispatching_record
     (dispatching_record "t1" "10.0.2.1"
        (dispatching_record "t1" "10.0.2.1" deployment.stations))) =
    ["10.0.2.1"; "10.0.2.1"] ∧
  dispatching_record "t1" "10.0.2.1"
    (dispatching_record "t1" "10.0.2.1" deployment.stations) ≠
  dispatching_record "t1" "10.0.2.1" deployment.stations.
Proof.
  split; [by vm_compute|].
  intros Heq.
  apply (f_equal (λ c, length (equal_range "t1" (m_dispatching_record c)))) in Heq.
  by vm_compute in Heq.
Qed.

(** ** Indexed access *)

(** C8: [get] throws exactly when the index is greater than the size.  At
    an index equal to the size the check passes and the vector is read one
    past its end; below the size the element is returned.  On the three
    stations of the deployment, index 2 returns the third station and
    index 3 does not throw. *)
Theorem get_throws_beyond_size c index :
  (get c index = out_of_range ↔ (size c < index)%N) ∧
  (index = size c → get c index = undefined_behaviour) ∧
  ((index < size c)%N → ∃ bs, get c index = returned bs) ∧
  subscript c index = get c index ∧ call c index = get c index ∧
  get deployment.stations 2 = returned deployment.C ∧
  get deployment.stations 3 = undefined_behaviour.
Proof.
  unfold subscript, call, get, size.
  split; [|split; [|split]]; [| | |done].
  - destruct (N.ltb_spec (N.of_nat (length (m_base_stations c))) index) as [Hlt|Hge].
    + done.
    + split; [|lia]. by destruct (m_base_stations c !! N.to_nat index).
  - intros ->. rewrite N.ltb_irrefl, Nat2N.id.
    by rewrite (lookup_ge_None_2 (m_base_stations c)) by lia.
  - intros Hlt.
    destruct (N.ltb_spec (N.of_nat (length (m_base_stations c))) index) as [?|_]; [lia|].
    destruct (lookup_lt_is_Some_2 (m_base_stations c) (N.to_nat index)) as [bs ->]; [lia|].
    by exists bs.
Qed.

(** ** The handlers, step by step *)

Section handlers.

Variable format_ip : Ipv4Address → string.

Lemma fits_satisfies t device : fits t device = true ↔ satisfies_spec device t.
Proof.
  unfold fits, satisfies_spec.
  rewrite !andb_true_iff, !Z.gtb_gt, Z.leb_le. tauto.
Qed.

Lemma fits_not_satisfies t device : fits t device = false ↔ ¬ satisfies_spec device t.
Proof. rewrite <- fits_satisfies. by destruct (fits t device). Qed.

(** The first element of a list that passes a test, positionally. *)
Lemma find_first {A : Type} (test : A → bool) (l before after : list A) (x : A) :
  l = before ++ x :: after →
  Forall (λ y, test y = false) before →
  test x = true →
  List.find test l = Some x.
Proof.
  intros -> Hbefore Hx.
  induction Hbefore as [|y before Hy _ IH]; simpl.
  - by rewrite Hx.
  - by rewrite Hy.
Qed.

Lemma find_split {A : Type} (test : A → bool) (l : list A) (x : A) :
  List.find test l = Some x →
  ∃ before after,
    l = before ++ x :: after ∧ Forall (λ y, test y = false) before ∧ test x = true.
Proof.
  induction l as [|y l IH]; simpl; [done|].
  destruct (test y) eqn:Hy.
  - intros [= ->]. by exists [], l.
  - intros Hfind. destruct (IH Hfind) as (before & after & -> & Hbefore & Hx).
    exists (y :: before), after. split; [done|]. split; [by constructor|done].
Qed.

Lemma find_None_Forall {A : Type} (test : A → bool) (l : list A) :
  List.find test l = None ↔ Forall (λ y, test y = false) l.
Proof.
  induction l as [|y l IH]; simpl.
  - split; [by constructor|done].
  - destruct (test y) eqn:Hy.
    + split; [done|]. intros Hall. apply Forall_cons in Hall as [Hy' _]. congruence.
    + rewrite IH. split; [by constructor|]. by intros [_ ?]%Forall_cons.
Qed.

Lemma has_free_resource_from_find devices t :
  has_free_resource_from devices t = bool_decide (is_Some (List.find (fits t) devices)).
Proof.
  induction devices as [|device rest IH]; simpl; [done|].
  fold (fits t device). destruct (fits t device); [done|]. apply IH.
Qed.

Lemma dispatching_devices_find this msg t devices s :
  dispatching_devices this msg t devices s =
  match List.find (fits t) devices with
  | Some device =>
      (true, {| base_stations := base_stations s;
                network := network s ++
                  [handle_at msg device; to_cloud message_dispatching_success msg this] |})
  | None => (false, s)
  end.
Proof.
  induction devices as [|device rest IH]; simpl; [done|].
  fold (fits t device). destruct (fits t device); [|apply IH].
  unfold mbind, action_bind, write, handle_at, to_cloud; simpl.
  by rewrite <- app_assoc.
Qed.

Lemma offloading_devices_find this msg t devices s :
  offloading_devices this msg t devices s =
  match List.find (fits t) devices with
  | Some device =>
      (true, {| base_stations := erase_dispatching_record (id t) (base_stations s);
                network := network s ++ [handle_at msg device] |})
  | None => (false, s)
  end.
Proof.
  induction devices as [|device rest IH]; simpl; [done|].
  fold (fits t device). by destruct (fits t device); [|apply IH].
Qed.

(** [find_if] with [non_dispatched_bs] only reads the state. *)
Lemma find_if_non_dispatched t range s :
  find_if (non_dispatched_bs format_ip t) range s =
  (List.find (λ bs, dispatched (id t) (format_ip (get_address bs)) (base_stations s)) range, s).
Proof.
  induction range as [|bs rest IH]; simpl; [done|].
  unfold mbind, action_bind, non_dispatched_bs, query at 1; simpl.
  by destruct (dispatched _ _ _); [|apply IH].
Qed.

Lemma get_device_0 (m_devices : list edge_device) :
  get_device m_devices 0 = head m_devices.
Proof. by destruct m_devices. Qed.

Lemma on_dispatching_message_find this packet s :
  on_dispatching_message this packet s =
  match m_edge_devices this with
  | [] => (None, s)
  | _ :: _ =>
      (Some tt,
       {| base_stations := base_stations s;
          network := network s ++
            match List.find (fits (to_task (from_packet packet))) (m_edge_devices this) with
            | Some device =>
                [handle_at (from_packet packet) device;
                 to_cloud message_dispatching_success (from_packet packet) this]
            | None => [to_cloud message_dispatching_failure (from_packet packet) this]
            end |})
  end.
Proof.
  unfold on_dispatching_message. rewrite get_device_0.
  destruct (m_edge_devices this) as [|device0 rest] eqn:Hdevices; [done|].
  cbn [head]. rewrite <- Hdevices. unfold mbind, action_bind.
  rewrite dispatching_devices_find.
  by destruct (List.find _ _).
Qed.

(** One call of [on_offloading_message], branch by branch. *)
Lemma on_offloading_message_find this packet s :
  let msg := from_packet packet in
  let t := to_task msg in
  let c := dispatching_record (id t) (format_ip (get_address this)) (base_stations s) in
  on_offloading_message format_ip this packet s =
  (tt,
   match List.find (fits t) (m_edge_devices this) with
   | Some device =>
       {| base_stations := erase_dispatching_record (id t) (base_stations s);
          network := network s ++ [handle_at msg device] |}
   | None =>
       match List.find (λ bs, dispatched (id t) (format_ip (get_address bs)) c)
               (m_base_stations c) with
       | Some bs => {| base_stations := c; network := network s ++ [forward_to packet bs] |}
       | None =>
           {| base_stations := erase_dispatching_record (id t) c;
              network := network s ++ [to_cloud message_handling msg this] |}
       end
   end).
Proof.
  intros msg t c.
  unfold on_offloading_message, mbind, action_bind.
  rewrite offloading_devices_find. fold msg t.
  destruct (List.find (fits t) _); simpl; [done|].
  rewrite find_if_non_dispatched; simpl. fold c.
  by destruct (List.find _ _).
Qed.

End handlers.

(** ** Matching *)

Lemma not_satisfies_fits t devices :
  Forall (λ d, ¬ satisfies_spec d t) devices ↔ Forall (λ d, fits t d = false) devices.
Proof. apply Forall_iff. intros d. by rewrite fits_not_satisfies. Qed.

Lemma first_satisfying t devices :
  (∃ before o after,
      devices = before ++ o :: after ∧
      Forall (λ d, ¬ satisfies_spec d t) before ∧ satisfies_spec o t) ∨
  Forall (λ d, ¬ satisfies_spec d t) devices.
Proof.
  destruct (List.find (fits t) devices) as [o|] eqn:Hfind.
  - left. apply find_split in Hfind as (before & after & -> & Hbefore & Ho).
    exists before, o, after. by rewrite not_satisfies_fits, <- fits_satisfies.
  - right. by apply not_satisfies_fits, find_None_Forall.
Qed.

(** C2: the device loops select the first device, in the order of the
    list, whose free CPU cycles exceed the needed ones, whose free memory
    exceeds the needed one and whose price is at most the budget, and
    report no match when no device satisfies all three; one of the two
    always applies.  A price equal to the budget is accepted, free CPU
    cycles equal to the needed ones are rejected. *)
Theorem first_fit_matching this msg t devices s :
  (∀ before o after,
      devices = before ++ o :: after →
      Forall (λ d, ¬ satisfies_spec d t) before →
      satisfies_spec o t →
      has_free_resource_from devices t = true ∧
      dispatching_devices this msg t devices s =
        (true, {| base_stations := base_stations s;
                  network := network s ++
                    [handle_at msg o; to_cloud message_dispatching_success msg this] |}) ∧
      offloading_devices this msg t devices s =
        (true, {| base_stations := erase_dispatching_record (id t) (base_stations s);
                  network := network s ++ [handle_at msg o] |})) ∧
  (Forall (λ d, ¬ satisfies_spec d t) devices →
      has_free_resource_from devices t = false ∧
      dispatching_devices this msg t devices s = (false, s) ∧
      offloading_devices this msg t devices s = (false, s)) ∧
  ((∃ before o after,
      devices = before ++ o :: after ∧
      Forall (λ d, ¬ satisfies_spec d t) before ∧ satisfies_spec o t) ∨
   Forall (λ d, ¬ satisfies_spec d t) devices) ∧
  (∀ o, price o = budget t →
        (free_cpu_cycles o > needed_cpu_cycles t)%Z →
        (free_memory o > needed_memory t)%Z →
        has_free_resource_from [o] t = true) ∧
  (∀ o, free_cpu_cycles o = needed_cpu_cycles t →
        has_free_resource_from [o] t = false).
Proof.
  split; [|split; [|split; [|split]]].
  - intros before o after Hsplit Hbefore Ho.
    apply not_satisfies_fits in Hbefore. apply fits_satisfies in Ho.
    pose proof (find_first (fits t) devices before after o Hsplit Hbefore Ho) as Hfind.
    rewrite has_free_resource_from_find, dispatching_devices_find,
      offloading_devices_find, Hfind.
    by rewrite bool_decide_eq_true_2 by eauto.
  - intros Hnone. apply not_satisfies_fits, find_None_Forall in Hnone.
    rewrite has_free_resource_from_find, dispatching_devices_find,
      offloading_devices_find, Hnone.
    split; [|done]. apply bool_decide_eq_false_2. by intros [? ?].
  - apply first_satisfying.
  - intros o Hprice Hcpu Hmem. simpl.
    apply Z.gtb_gt in Hcpu, Hmem. rewrite Hcpu, Hmem, Hprice, Z.leb_refl. done.
  - intros o Hcpu. simpl.
    rewrite Hcpu, Z.gtb_ltb, Z.ltb_irrefl. done.
Qed.

(** ** The request path *)

(** C9: [on_dispatching_message] writes, when a device satisfies the task,
    a message tagged as handling to the first such device and one tagged
    as dispatch success to the cloud address; when devices are connected
    and none satisfies the task, one message tagged as dispatch failure to
    the cloud address and nothing else, so nothing goes to a base station.
    With no device connected the call stops at its log line, which asks
    for device 0, and the failure notice is not written: station B of the
    deployment, for t2.  In every case the container, and with it the
    dispatching record, is left as it was. *)
Theorem on_dispatching_message_outcome this packet s :
  let msg := from_packet packet in
  let t := to_task msg in
  (∀ before o after,
      m_edge_devices this = before ++ o :: after →
      Forall (λ d, ¬ satisfies_spec d t) before →
      satisfies_spec o t →
      on_dispatching_message this packet s =
        (Some tt,
         {| base_stations := base_stations s;
            network := network s ++
              [Datagram (to_packet {| msg_type := message_handling; to_task := t |})
                 (dev_address o) (dev_port o);
               Datagram (to_packet {| msg_type := message_dispatching_success;
                                      to_task := t |})
                 (m_cs_address this).1 (m_cs_address this).2] |})) ∧
  (m_edge_devices this ≠ [] →
   Forall (λ d, ¬ satisfies_spec d t) (m_edge_devices this) →
      on_dispatching_message this packet s =
        (Some tt,
         {| base_stations := base_stations s;
            network := network s ++
              [Datagram (to_packet {| msg_type := message_dispatching_failure;
                                      to_task := t |})
                 (m_cs_address this).1 (m_cs_address this).2] |})) ∧
  (m_edge_devices this = [] → on_dispatching_message this packet s = (None, s)) ∧
  base_stations (on_dispatching_message this packet s).2 = base_stations s ∧
  on_dispatching_message deployment.B (deployment.request deployment.t2) deployment.idle =
    (None, deployment.idle).
Proof.
  intros msg t. rewrite on_dispatching_message_find. fold msg t.
  split; [|split; [|split; [|split; [|done]]]].
  - intros before o after Hsplit Hbefore Ho.
    apply not_satisfies_fits in Hbefore. apply fits_satisfies in Ho.
    rewrite (find_first (fits t) _ before after o Hsplit Hbefore Ho).
    rewrite Hsplit. by destruct before.
  - intros Hne Hnone. apply not_satisfies_fits, find_None_Forall in Hnone.
    rewrite Hnone. by destruct (m_edge_devices this).
  - by intros ->.
  - by destruct (m_edge_devices this).
Qed.

(** ** The offload path, one call *)

Section offload_handler.

Variable format_ip : Ipv4Address → string.

Lemma written_app s c l :
  written s {| base_stations := c; network := network s ++ l |} = l.
Proof. unfold written; simpl. by rewrite drop_app_length. Qed.

Lemma has_free_resource_false this t :
  has_free_resource this t = false ↔ List.find (fits t) (m_edge_devices this) = None.
Proof.
  unfold has_free_resource. rewrite has_free_resource_from_find.
  rewrite bool_decide_eq_false. destruct (List.find _ _); [|done].
  split; [intros []; eauto | done].
Qed.

(** C3: when no connected device satisfies the task, the handler records
    its own formatted address under the task id; it then forwards the
    packet it received, unchanged, to the first station of the container,
    in the order of the list, whose address is not recorded under the task
    id; and when every station is recorded it writes a message tagged as
    handling, carrying the task, to the cloud address and erases the
    entries of the task id. *)
Theorem on_offloading_message_unmatched this packet s :
  let msg := from_packet packet in
  let t := to_task msg in
  let c := dispatching_record (id t) (format_ip (get_address this)) (base_stations s) in
  let recorded := λ bs : base_station,
    format_ip (get_address bs) ∈ equal_range (id t) (m_dispatching_record c) in
  Forall (λ d, ¬ satisfies_spec d t) (m_edge_devices this) →
  recorded this ∧
  (∀ before bs after,
      m_base_stations (base_stations s) = before ++ bs :: after →
      Forall recorded before →
      ¬ recorded bs →
      on_offloading_message format_ip this packet s =
        (tt, {| base_stations := c;
                network := network s ++
                  [Datagram packet (get_address bs) (get_port bs)] |})) ∧
  (Forall recorded (m_base_stations (base_stations s)) →
      on_offloading_message format_ip this packet s =
        (tt, {| base_stations := erase_dispatching_record (id t) c;
                network := network s ++
                  [Datagram (to_packet {| msg_type := message_handling;
                                          to_task := t |})
                     (m_cs_address this).1 (m_cs_address this).2] |}) ∧
      equal_range (id t)
        (m_dispatching_record (erase_dispatching_record (id t) c)) = []).
Proof.
  intros msg t c recorded Hnone.
  apply not_satisfies_fits, find_None_Forall in Hnone.
  pose proof (on_offloading_message_find format_ip this packet s) as Hrun.
  cbv zeta in Hrun. fold msg t c in Hrun. rewrite Hnone in Hrun.
  split; [|split].
  - apply dispatched_range_false. apply (dispatched_recorded (id t) _ (base_stations s)).
  - intros before bs after Hsplit Hbefore Hbs.
    rewrite Hrun.
    rewrite (find_first _ (m_base_stations c) before after bs); [done|done| |].
    + eapply Forall_impl; [exact Hbefore|]. intros b Hb. by apply dispatched_range_false.
    + by apply dispatched_range_true.
  - intros Hall. rewrite Hrun.
    assert (List.find (λ bs, dispatched (id t) (format_ip (get_address bs)) c)
              (m_base_stations c) = None) as ->.
    { apply find_None_Forall. eapply Forall_impl; [exact Hall|].
      intros b Hb. by apply dispatched_range_false. }
    split; [done|]. simpl. by rewrite equal_range_erase, decide_True.
Qed.

(** C6: a call of [on_offloading_message] either forwards the packet to a
    base station of the container, or it ends the task's way through the
    base stations, with a handling message to a device that satisfies the
    task or to the cloud address, and then no entry is left under the task
    id: the lookup finds no station recorded for it. *)
Theorem on_offloading_message_clears this packet s :
  let msg := from_packet packet in
  let t := to_task msg in
  let s' := (on_offloading_message format_ip this packet s).2 in
  (∃ bs, bs ∈ m_base_stations (base_stations s) ∧
         written s s' = [Datagram packet (get_address bs) (get_port bs)]) ∨
  (((∃ o, o ∈ m_edge_devices this ∧ satisfies_spec o t ∧
          written s s' =
            [Datagram (to_packet (type message_handling msg))
               (dev_address o) (dev_port o)]) ∨
    (Forall (λ d, ¬ satisfies_spec d t) (m_edge_devices this) ∧
     written s s' =
       [Datagram (to_packet (type message_handling msg))
          (m_cs_address this).1 (m_cs_address this).2])) ∧
   equal_range (id t) (m_dispatching_record (base_stations s')) = [] ∧
   ∀ bs_ip, dispatched (id t) bs_ip (base_stations s') = true ∧
            already_tried_spec (id t) bs_ip (base_stations s') = false).
Proof.
  intros msg t s'. subst s'.
  rewrite (on_offloading_message_find format_ip this packet s). cbv zeta.
  cbn [snd]. fold msg t.
  set (c := dispatching_record (id t) (format_ip (get_address this)) (base_stations s)).
  assert (∀ c0, equal_range (id t)
            (m_dispatching_record (erase_dispatching_record (id t) c0)) = [] ∧
          ∀ bs_ip, dispatched (id t) bs_ip (erase_dispatching_record (id t) c0) = true ∧
                   already_tried_spec (id t) bs_ip
                     (erase_dispatching_record (id t) c0) = false) as Hclear.
  { intros c0. unfold already_tried_spec, dispatched; simpl.
    rewrite equal_range_erase, decide_True by done.
    split; [done|]. intros bs_ip. split; [done|].
    apply bool_decide_eq_false_2, not_elem_of_nil. }
  destruct (List.find (fits t) (m_edge_devices this)) as [o|] eqn:Hdev.
  - right. split; [|apply Hclear]. left. exists o.
    apply find_split in Hdev as (before & after & Hsplit & _ & Ho).
    rewrite written_app, Hsplit. split; [|split; [by apply fits_satisfies|done]].
    apply elem_of_app. right. apply elem_of_cons. by left.
  - destruct (List.find _ (m_base_stations c)) as [bs|] eqn:Hbs.
    + left. exists bs. rewrite written_app. split; [|done].
      apply find_split in Hbs as (before & after & Hsplit & _).
      change (m_base_stations c) with (m_base_stations (base_stations s)) in Hsplit.
      rewrite Hsplit. apply elem_of_app. right. apply elem_of_cons. by left.
    + right. split; [|apply Hclear]. right. rewrite written_app.
      split; [|done]. by apply not_satisfies_fits, find_None_Forall.
Qed.

(** C10: when no device satisfies the task and the scan of the container
    after the handler has recorded itself selects a station, the packet is
    written to that station, whose address is not the handler's own: the
    handler is recorded for the task id when the scan starts and the
    selected station is not. *)
Theorem never_forwards_to_itself this packet s bs s1 :
  let t := to_task (from_packet packet) in
  let c := dispatching_record (id t) (format_ip (get_address this)) (base_stations s) in
  has_free_resource this t = false →
  find_if (non_dispatched_bs format_ip t) (m_base_stations c)
    {| base_stations := c; network := network s |} = (Some bs, s1) →
  on_offloading_message format_ip this packet s =
    (tt, {| base_stations := c;
            network := network s ++ [Datagram packet (get_address bs) (get_port bs)] |}) ∧
  bs ∈ m_base_stations (base_stations s) ∧
  dispatched (id t) (format_ip (get_address this)) c = false ∧
  dispatched (id t) (format_ip (get_address bs)) c = true ∧
  format_ip (get_address bs) ≠ format_ip (get_address this) ∧
  get_address bs ≠ get_address this.
Proof.
  intros t c Hnone Hscan.
  apply has_free_resource_false in Hnone.
  rewrite find_if_non_dispatched in Hscan. cbn [base_stations] in Hscan.
  injection Hscan as Hfind _.
  pose proof (on_offloading_message_find format_ip this packet s) as Hrun.
  cbv zeta in Hrun. fold t c in Hrun.
  change (m_base_stations (base_stations s)) with (m_base_stations c) in Hfind.
  rewrite Hnone, Hfind in Hrun.
  apply find_split in Hfind as (before & after & Hsplit & _ & Hbs).
  pose proof (dispatched_recorded (id t) (format_ip (get_address this)) (base_stations s))
    as Hthis. fold c in Hthis.
  split; [done|]. split; [|split; [done|split; [done|]]].
  - change (m_base_stations c) with (m_base_stations (base_stations s)) in Hsplit.
    rewrite Hsplit. apply elem_of_app. right. apply elem_of_cons. by left.
  - assert (format_ip (get_address bs) ≠ format_ip (get_address this)) as Hne.
    { intros Heq. rewrite Heq in Hbs. congruence. }
    split; [done|]. intros Heq. by rewrite Heq in Hne.
Qed.

End offload_handler.

(** ** The offload path, from station to station *)

Section offload_protocol.

Variable format_ip : Ipv4Address → string.

Lemma filter_length_le {A : Type} (keep keep' : A → bool) (l : list A) :
  (∀ x, keep' x = true → keep x = true) →
  length (List.filter keep' l) ≤ length (List.filter keep l).
Proof.
  intros Himpl. induction l as [|y l IH]; simpl; [done|].
  destruct (keep' y) eqn:Hy'.
  - rewrite (Himpl y Hy'). simpl. lia.
  - destruct (keep y); simpl; lia.
Qed.

Lemma filter_length_lt {A : Type} (keep keep' : A → bool) (l : list A) (x : A) :
  (∀ y, keep' y = true → keep y = true) →
  x ∈ l → keep x = true → keep' x = false →
  length (List.filter keep' l) < length (List.filter keep l).
Proof.
  intros Himpl Hin Hx Hx'. induction l as [|y l IH]; [by apply elem_of_nil in Hin|].
  apply elem_of_cons in Hin as [<-|Hin]; simpl.
  - rewrite Hx, Hx'. simpl.
    pose proof (filter_length_le keep keep' l Himpl). lia.
  - specialize (IH Hin). destruct (keep' y) eqn:Hy'.
    + rewrite (Himpl y Hy'). simpl. lia.
    + destruct (keep y); simpl; lia.
Qed.

Lemma pending_le task_id c : length (pending format_ip task_id c) ≤ length (m_base_stations c).
Proof.
  unfold pending. induction (m_base_stations c) as [|bs l IH]; simpl; [done|].
  destruct (dispatched _ _ _); simpl; lia.
Qed.

(** A station that is still pending stops being so once it records itself. *)
Lemma pending_record_lt task_id bs c :
  bs ∈ m_base_stations c →
  dispatched task_id (format_ip (get_address bs)) c = true →
  length (pending format_ip task_id
            (dispatching_record task_id (format_ip (get_address bs)) c)) <
  length (pending format_ip task_id c).
Proof.
  intros Hin Hbs. unfold pending.
  change (m_base_stations (dispatching_record _ _ c)) with (m_base_stations c).
  apply (filter_length_lt _ _ _ bs); [|done|done|apply dispatched_recorded].
  intros b Hb.
  destruct (dispatched task_id (format_ip (get_address b)) c) eqn:Hc; [done|].
  by rewrite (dispatched_record_mono task_id _ _ _ c Hc) in Hb.
Qed.

Lemma receiver_forward_to packet bs c :
  msg_type (from_packet packet) = message_offloading_task →
  bs ∈ m_base_stations c →
  ∃ next, receiver c (forward_to packet bs) = Some next ∧
          next ∈ m_base_stations c ∧ get_address next = get_address bs.
Proof.
  intros Htype Hin. unfold receiver, forward_to at 1; simpl. rewrite Htype.
  destruct (List.find _ _) as [next|] eqn:Hfind.
  - exists next. split; [done|].
    apply List.find_some in Hfind as [Hnext Hbound].
    apply bool_decide_eq_true in Hbound as [Haddr _].
    split; [by apply list_elem_of_In|exact Haddr].
  - exfalso. apply list_elem_of_In in Hin.
    pose proof (List.find_none _ _ Hfind bs Hin) as Hbs.
    apply bool_decide_eq_false in Hbs. by apply Hbs.
Qed.

(** What one call does to a task in flight: it ends its way at [this], or
    it hands the same packet to a station that was still pending after
    [this] recorded itself. *)
Lemma on_offloading_message_step this packet s :
  let t := to_task (from_packet packet) in
  let c := dispatching_record (id t) (format_ip (get_address this)) (base_stations s) in
  let s' := (on_offloading_message format_ip this packet s).2 in
  msg_type (from_packet packet) = message_offloading_task →
  (forwarded s s' = None ∧ resolved this packet s' ∧
   equal_range (id t) (m_dispatching_record (base_stations s')) = []) ∨
  (∃ next, forwarded s s' = Some (next, packet) ∧ base_stations s' = c ∧
           next ∈ m_base_stations c ∧
           dispatched (id t) (format_ip (get_address next)) c = true).
Proof.
  intros t c s' Htype. subst s'.
  rewrite (on_offloading_message_find format_ip this packet s). cbv zeta.
  cbn [snd]. fold t c.
  destruct (List.find (fits t) (m_edge_devices this)) as [o|] eqn:Hdev.
  - left. unfold forwarded. rewrite written_app. simpl.
    split; [done|]. split.
    + exists (handle_at (from_packet packet) o). simpl. rewrite last_snoc.
      split; [done|]. split; [done|]. right. exists o.
      apply find_split in Hdev as (before & after & Hsplit & _ & Ho).
      split; [|split; [by apply fits_satisfies|done]].
      rewrite Hsplit. apply elem_of_app. right. apply elem_of_cons. by left.
    + by rewrite equal_range_erase, decide_True.
  - destruct (List.find _ (m_base_stations c)) as [bs|] eqn:Hbs.
    + right. apply find_split in Hbs as (before & after & Hsplit & _ & Hpending).
      assert (bs ∈ m_base_stations c) as Hin.
      { rewrite Hsplit. apply elem_of_app. right. apply elem_of_cons. by left. }
      destruct (receiver_forward_to packet bs c Htype Hin) as (next & Hnext & Hnin & Haddr).
      exists next. unfold forwarded. rewrite written_app. simpl. rewrite Hnext. simpl.
      split; [done|]. split; [done|]. split; [done|]. by rewrite Haddr.
    + left. unfold forwarded. rewrite written_app. simpl.
      split; [done|]. split.
      * exists (to_cloud message_handling (from_packet packet) this). simpl.
        rewrite last_snoc. split; [done|]. split; [done|]. left.
        by destruct (m_cs_address this).
      * by rewrite equal_range_erase, decide_True.
Qed.

Lemma offloading_within steps : ∀ this packet s,
  msg_type (from_packet packet) = message_offloading_task →
  length (pending format_ip (id (to_task (from_packet packet)))
            (dispatching_record (id (to_task (from_packet packet)))
               (format_ip (get_address this)) (base_stations s))) < steps →
  ∃ path s',
    offloading format_ip steps this packet s = Some (path, s') ∧
    length path ≤ steps ∧
    ∃ final, last path = Some final ∧ resolved final packet s' ∧
      equal_range (id (to_task (from_packet packet)))
        (m_dispatching_record (base_stations s')) = [].
Proof.
  induction steps as [|steps IH]; intros this packet s Htype Hfuel; [lia|].
  simpl.
  destruct (on_offloading_message_step this packet s Htype)
    as [(Hend & Hres & Hclear) | (next & Hfw & Hc & Hin & Hpending)].
  - rewrite Hend. exists [this], (on_offloading_message format_ip this packet s).2.
    split; [done|]. split; [simpl; lia|]. by exists this.
  - rewrite Hfw.
    destruct (IH next packet (on_offloading_message format_ip this packet s).2 Htype)
      as (path & s'' & Hrun & Hlen & final & Hlast & Hres & Hclear).
    { rewrite Hc.
      pose proof (pending_record_lt _ next _ Hin Hpending). lia. }
    rewrite Hrun. exists (this :: path), s''.
    split; [done|]. split; [simpl; lia|]. exists final.
    split; [|done]. rewrite last_cons, Hlast. done.
Qed.

(** C1: from any station of a container of N base stations, in any state
    of the dispatching record, an offloading message is resolved after at
    most N+1 calls of [on_offloading_message]: the station that handles it
    last writes a handling message for one of its devices that satisfies
    the task or for the cloud, and leaves no entry under the task id. *)
Theorem offloading_terminates this packet s :
  msg_type (from_packet packet) = message_offloading_task →
  ∃ path s',
    offloading format_ip (length (m_base_stations (base_stations s)) + 1)
      this packet s = Some (path, s') ∧
    length path ≤ length (m_base_stations (base_stations s)) + 1 ∧
    ∃ final, last path = Some final ∧ resolved final packet s' ∧
      equal_range (id (to_task (from_packet packet)))
        (m_dispatching_record (base_stations s')) = [].
Proof.
  intros Htype. apply offloading_within; [done|].
  pose proof (pending_le (id (to_task (from_packet packet)))
    (dispatching_record (id (to_task (from_packet packet)))
       (format_ip (get_address this)) (base_stations s))) as Hle.
  simpl in Hle. lia.
Qed.

End offload_protocol.

(** ** No revisit *)

Section visited_stations.

Variable format_ip : Ipv4Address → string.

(** A call for a task with another id leaves the entries of this id alone. *)
Lemma on_offloading_message_other_id other packet' s task_id :
  id (to_task (from_packet packet')) ≠ task_id →
  equal_range task_id
    (m_dispatching_record (base_stations (on_offloading_message format_ip other packet' s).2)) =
  equal_range task_id (m_dispatching_record (base_stations s)).
Proof.
  intros Hne.
  rewrite (on_offloading_message_find format_ip other packet' s). cbv zeta. cbn [snd].
  destruct (List.find (fits _) _); simpl.
  - by rewrite equal_range_erase, decide_False.
  - destruct (List.find _ _); simpl.
    + by rewrite equal_range_emplace, decide_False.
    + by rewrite equal_range_erase, decide_False, equal_range_emplace, decide_False.
Qed.

(** A call that forwards to a base station took the peer branch. *)
Lemma forwarded_peer this packet s next packet' :
  let t := to_task (from_packet packet) in
  let c := dispatching_record (id t) (format_ip (get_address this)) (base_stations s) in
  forwarded s (on_offloading_message format_ip this packet s).2 = Some (next, packet') →
  packet' = packet ∧
  base_stations (on_offloading_message format_ip this packet s).2 = c ∧
  next ∈ m_base_stations c ∧
  dispatched (id t) (format_ip (get_address next)) c = true.
Proof.
  intros t c.
  rewrite (on_offloading_message_find format_ip this packet s). cbv zeta. cbn [snd].
  fold t c. unfold forwarded.
  destruct (List.find (fits t) (m_edge_devices this)) as [o|].
  { rewrite written_app. simpl. done. }
  destruct (List.find _ (m_base_stations c)) as [bs|] eqn:Hbs.
  2: { rewrite written_app. simpl. done. }
  rewrite written_app. simpl. unfold receiver. simpl.
  apply find_split in Hbs as (_ & _ & _ & _ & Hpending).
  destruct (msg_type (from_packet packet)); simpl; try done.
  destruct (List.find _ _) as [bs'|] eqn:Hfind; simpl; [|done].
  intros [= -> <-].
  apply List.find_some in Hfind as [Hin Hbound].
  apply bool_decide_eq_true in Hbound as [Haddr _]. simpl in Haddr.
  split; [done|]. split; [done|]. split; [by apply list_elem_of_In|].
  by rewrite Haddr.
Qed.

Lemma reachable_recorded this0 packet0 s0 visited this packet s :
  reachable format_ip this0 packet0 s0 visited this packet s →
  packet = packet0 ∧
  ∀ v, v ∈ visited →
    dispatched (id (to_task (from_packet packet0))) (format_ip (get_address v))
      (base_stations s) = false.
Proof.
  induction 1 as [|visited this packet s next packet' _ [-> IH] Hfw
                  |visited this packet s other packet' _ [-> IH] Hne].
  - split; [done|]. intros v Hv. by apply elem_of_nil in Hv.
  - apply forwarded_peer in Hfw as (-> & -> & _ & _).
    split; [done|]. intros v [Hv| ->%list_elem_of_singleton]%elem_of_app.
    + by apply dispatched_record_mono, IH.
    + apply dispatched_recorded.
  - split; [done|]. intros v Hv. unfold dispatched.
    rewrite on_offloading_message_other_id by done. by apply IH.
Qed.

(** C7: in every state the offload protocol reaches for a task, the
    stations that have handled the task are recorded under its id; and
    when the station now handling it forwards it, then at the moment of
    selection (after that station has recorded itself) every station
    visited so far, this one included, is recorded while the selected
    station is not, so the packet goes to none of them. *)
Theorem no_revisit this0 packet0 s0 visited this packet s :
  let t := to_task (from_packet packet0) in
  let c := dispatching_record (id t) (format_ip (get_address this)) (base_stations s) in
  reachable format_ip this0 packet0 s0 visited this packet s →
  (∀ v, v ∈ visited →
     format_ip (get_address v) ∈ equal_range (id t) (m_dispatching_record (base_stations s))) ∧
  ∀ next packet',
    forwarded s (on_offloading_message format_ip this packet s).2 = Some (next, packet') →
    packet' = packet0 ∧
    base_stations (on_offloading_message format_ip this packet s).2 = c ∧
    (∀ v, v ∈ visited ++ [this] →
       format_ip (get_address v) ∈ equal_range (id t) (m_dispatching_record c) ∧
       already_tried_spec (id t) (format_ip (get_address v)) c = true ∧
       dispatched (id t) (format_ip (get_address v)) c = false ∧
       get_address next ≠ get_address v) ∧
    (format_ip (get_address next) ∉ equal_range (id t) (m_dispatching_record c)) ∧
    already_tried_spec (id t) (format_ip (get_address next)) c = false ∧
    dispatched (id t) (format_ip (get_address next)) c = true.
Proof.
  intros t c Hreach.
  apply reachable_recorded in Hreach as [-> Hvisited]. fold t in Hvisited.
  split.
  { intros v Hv. by apply dispatched_range_false, Hvisited. }
  intros next packet' Hfw.
  apply forwarded_peer in Hfw as (-> & Hc & _ & Hnext). fold t c in Hc, Hnext.
  split; [done|]. split; [done|].
  assert (∀ v, v ∈ visited ++ [this] →
            dispatched (id t) (format_ip (get_address v)) c = false) as Hrec.
  { intros v [Hv| ->%list_elem_of_singleton]%elem_of_app.
    - by apply dispatched_record_mono, Hvisited.
    - apply dispatched_recorded. }
  split; [|split; [by apply dispatched_range_true|split; [|done]]].
  - intros v Hv. specialize (Hrec v Hv).
    split; [by apply dispatched_range_false|].
    split; [by apply bool_decide_eq_true_2, dispatched_range_false|].
    split; [done|]. intros Heq. rewrite Heq in Hnext. congruence.
  - by apply bool_decide_eq_false_2, dispatched_range_true.
Qed.

End visited_stations.

(** ** The handlers on the deployment *)

Import deployment.

(** The scenario of three stations without a match: A records itself and
    forwards to B, B to C, and C, finding every station recorded, hands the
    task to the cloud and erases the entries of t2. *)
Example offloading_A_B_C :
  offloading dotted 4 A (offload t2) idle =
  Some ([A; B; C],
        {| base_stations := stations;
           network := [forward_to (offload t2) B; forward_to (offload t2) C;
                       to_cloud message_handling (from_packet (offload t2)) C] |}).
Proof. by vm_compute. Qed.

(** The matcher skips the device with too few free cycles. *)
Example dispatching_second_offer :
  on_dispatching_message D (request t1) idle =
  (Some tt,
   {| base_stations := stations;
      network :=
        [Datagram (to_packet {| msg_type := message_handling; to_task := t1 |})
           (dev_address strong) (dev_port strong);
         Datagram (to_packet {| msg_type := message_dispatching_success; to_task := t1 |})
           cloud.1 cloud.2] |}).
Proof. by vm_compute. Qed.

Lemma weak_not_satisfies t :
  needed_cpu_cycles t = 10%Z → Forall (λ d, ¬ satisfies_spec d t) [weak].
Proof.
  intros Hcpu. apply Forall_cons. split; [|by apply Forall_nil].
  unfold satisfies_spec. simpl. rewrite Hcpu. lia.
Defined.

(** C1 on the deployment: the task offloaded at A is resolved within 3+1
    calls. *)
Lemma offloading_terminates_from_A :
  msg_type (from_packet (offload t2)) = message_offloading_task ∧
  ∃ path s',
    offloading dotted (3 + 1) A (offload t2) idle = Some (path, s') ∧
    length path ≤ 3 + 1 ∧
    ∃ final, last path = Some final ∧ resolved final (offload t2) s' ∧
      equal_range "t2" (m_dispatching_record (base_stations s')) = [].
Proof.
  split; [reflexivity|].
  exact (offloading_terminates dotted A (offload t2) idle eq_refl).
Defined.

(** C3 on the deployment: A has no device for t2, records 10.0.2.1 and
    forwards the packet to B, the first station not recorded; C, called
    when A and B are recorded, records 10.0.2.3, finds every station
    recorded and writes the handling message for t2 to the cloud. *)
Lemma on_offloading_message_unmatched_at_A :
  Forall (λ d, ¬ satisfies_spec d t2) (m_edge_devices A) ∧
  on_offloading_message dotted A (offload t2) idle =
    (tt, {| base_stations := dispatching_record "t2" "10.0.2.1" stations;
            network := [Datagram (offload t2) (get_address B) (get_port B)] |}) ∧
  on_offloading_message dotted C (offload t2)
    {| base_stations :=
         dispatching_record "t2" "10.0.2.2" (dispatching_record "t2" "10.0.2.1" stations);
       network := [] |} =
    (tt, {| base_stations := stations;
            network :=
              [Datagram (to_packet {| msg_type := message_handling; to_task := t2 |})
                 167772417%N 8860%N] |}).
Proof.
  assert (Forall (λ d, ¬ satisfies_spec d t2) (m_edge_devices A)) as Hnone
    by (apply weak_not_satisfies; reflexivity).
  split; [exact Hnone|]. split.
  - destruct (on_offloading_message_unmatched dotted A (offload t2) idle Hnone)
      as (_ & Hforward & _).
    apply (Hforward [A] B [C]).
    + reflexivity.
    + apply Forall_cons. split; [|by apply Forall_nil].
      apply dispatched_range_false. by vm_compute.
    + apply dispatched_range_true. by vm_compute.
  - destruct (on_offloading_message_unmatched dotted C (offload t2)
                {| base_stations :=
                     dispatching_record "t2" "10.0.2.2"
                       (dispatching_record "t2" "10.0.2.1" stations);
                   network := [] |} Hnone) as (_ & _ & Hcloud).
    destruct Hcloud as [Hrun _].
    + repeat (apply Forall_cons; split; [apply dispatched_range_false; by vm_compute|]).
      by apply Forall_nil.
    + rewrite Hrun. by vm_compute.
Defined.

(** C10 on the deployment: the scan at A selects B, not A. *)
Lemma never_forwards_to_itself_at_A :
  has_free_resource A t2 = false ∧
  get_address B ≠ get_address A.
Proof.
  split; [reflexivity|].
  apply (never_forwards_to_itself dotted A (offload t2) idle B
           {| base_stations := dispatching_record "t2" "10.0.2.1" stations;
              network := [] |}).
  - reflexivity.
  - by vm_compute.
Defined.

(** C7 on the deployment: once A has forwarded the task to B, A is
    recorded, and B forwards to C, which is neither A nor B. *)
Lemma no_revisit_at_B :
  reachable dotted A (offload t2) idle [A] B (offload t2)
    (on_offloading_message dotted A (offload t2) idle).2 ∧
  get_address C ≠ get_address A ∧ get_address C ≠ get_address B.
Proof.
  assert (reachable dotted A (offload t2) idle [A] B (offload t2)
            (on_offloading_message dotted A (offload t2) idle).2) as Hreach.
  { apply (reachable_forward dotted A (offload t2) idle [] A (offload t2) idle B).
    - apply reachable_start.
    - by vm_compute. }
  split; [exact Hreach|].
  destruct (no_revisit dotted A (offload t2) idle [A] B (offload t2) _ Hreach)
    as (_ & Hselect).
  destruct (Hselect C (offload t2)) as (_ & _ & Hvisited & _); [by vm_compute|].
  split.
  - apply (Hvisited A). apply elem_of_cons. by left.
  - apply (Hvisited B). apply elem_of_cons. right. apply elem_of_cons. by left.
Defined.

(** * More properties of the code *)

(** ** The dispatching record, continued *)

(** X1: [erase_dispatching_record] leaves nothing recorded under its task
    id, however often stations were recorded there; it changes no answer
    when the id had no entry, a second erase changes nothing, entries of
    other ids stay, and erasing after a record is the same as erasing
    alone. *)
Theorem erase_dispatching_record_clears task_id c :
  (∀ bs_ip, dispatched task_id bs_ip (erase_dispatching_record task_id c) = true) ∧
  (equal_range task_id (m_dispatching_record c) = [] →
   ∀ other bs_ip,
     dispatched other bs_ip (erase_dispatching_record task_id c) =
     dispatched other bs_ip c) ∧
  erase_dispatching_record task_id (erase_dispatching_record task_id c) =
    erase_dispatching_record task_id c ∧
  (∀ other, other ≠ task_id →
     equal_range other (m_dispatching_record (erase_dispatching_record task_id c)) =
     equal_range other (m_dispatching_record c)) ∧
  (∀ bs_ip,
     erase_dispatching_record task_id (dispatching_record task_id bs_ip c) =
     erase_dispatching_record task_id c).
Proof.
  unfold dispatched, erase_dispatching_record, dispatching_record, erase, emplace; simpl.
  split; [|split; [|split; [|split]]].
  - intros bs_ip. fold (erase task_id (m_dispatching_record c)).
    by rewrite equal_range_erase, decide_True.
  - intros Hempty other bs_ip. fold (erase task_id (m_dispatching_record c)).
    rewrite equal_range_erase. case_decide as Hk; [|done]. subst other. by rewrite Hempty.
  - f_equal. apply delete_delete_eq.
  - intros other Hne. fold (erase task_id (m_dispatching_record c)).
    by rewrite equal_range_erase, decide_False.
  - intros bs_ip. f_equal. apply delete_insert_eq.
Qed.

(** X2: what a record does to the lookup: after [dispatching_record] of a
    pair, [dispatched] answers [false] for that pair and answers for every
    other task id or station what it answered before. *)
Theorem dispatched_after_record task_id bs_ip task_id' bs_ip' c :
  dispatched task_id' bs_ip' (dispatching_record task_id bs_ip c) =
  dispatched task_id' bs_ip' c &&
  negb (bool_decide (task_id' = task_id ∧ bs_ip' = bs_ip)).
Proof.
  unfold dispatched, dispatching_record; simpl.
  rewrite equal_range_emplace. case_decide as Hk.
  - subst task_id'. rewrite dispatched_range_app. simpl. f_equal.
    case_bool_decide as Hip.
    + subst bs_ip'. by rewrite bool_decide_eq_true_2.
    + rewrite bool_decide_eq_false_2; [done|]. intros [_ ?]. by subst.
  - rewrite bool_decide_eq_false_2; [by rewrite andb_true_r|]. intros [? _]. by subst.
Qed.

(** ** detach *)

Lemma find_if_pure (p : base_station → bool) range s :
  find_if (λ bs, mret (p bs)) range s = (List.find p range, s).
Proof.
  induction range as [|bs rest IH]; simpl; [done|].
  unfold mbind, action_bind, mret, action_ret at 1; simpl.
  by destruct (p bs); [|apply IH].
Qed.

(** X3: [detach] calls exactly one of its two callbacks: [yes], with the
    address and port of the first station of the container, in the order
    of the list, that the predicate accepts, or [no], with the cloud
    address of the calling station, when the predicate accepts none; on an
    empty container it is always [no]. *)
Theorem detach_first_or_cloud this (p : base_station → bool) yes no s :
  (∀ before bs after,
      m_base_stations (base_stations s) = before ++ bs :: after →
      Forall (λ b, p b = false) before →
      p bs = true →
      detach this (λ bs, mret (p bs)) yes no s = yes (get_address bs) (get_port bs) s) ∧
  (Forall (λ b, p b = false) (m_base_stations (base_stations s)) →
      detach this (λ bs, mret (p bs)) yes no s =
      no (m_cs_address this).1 (m_cs_address this).2 s) ∧
  (m_base_stations (base_stations s) = [] →
      detach this (λ bs, mret (p bs)) yes no s =
      no (m_cs_address this).1 (m_cs_address this).2 s).
Proof.
  assert (detach this (λ bs, mret (p bs)) yes no s =
          match List.find p (m_base_stations (base_stations s)) with
          | Some bs => yes (get_address bs) (get_port bs) s
          | None => no (m_cs_address this).1 (m_cs_address this).2 s
          end) as Hrun.
  { unfold detach, mbind, action_bind, query; simpl. rewrite find_if_pure. simpl.
    by destruct (List.find _ _). }
  rewrite Hrun. split; [|split].
  - intros before bs after Hsplit Hbefore Hbs.
    by rewrite (find_first p _ before after bs Hsplit Hbefore Hbs).
  - intros Hnone. apply find_None_Forall in Hnone. by rewrite Hnone.
  - by intros ->.
Qed.

Section detach_offloading.

Variable format_ip : Ipv4Address → string.

(** X4: for a task that no connected device satisfies,
    [on_offloading_message] does what the station's own operations do in
    sequence: [dispatching_record] of the task id, then [detach] with the
    test "not yet dispatched to this station", forwarding the received
    packet on [yes] and, on [no], writing a handling message and erasing
    the record of the task id. *)
Theorem on_offloading_message_as_detach this packet s :
  let msg := from_packet packet in
  let t := to_task msg in
  has_free_resource this t = false →
  on_offloading_message format_ip this packet s =
  (base_station_dispatching_record format_ip this (id t);;
   detach this (non_dispatched_bs format_ip t)
     (λ address port, write packet address port)
     (λ address port,
        write (to_packet (type message_handling msg)) address port;;
        base_station_erase_dispatching_record this (id t))) s.
Proof.
  intros msg t Hnone. apply has_free_resource_false in Hnone.
  unfold on_offloading_message, mbind, action_bind.
  rewrite offloading_devices_find. fold msg t. rewrite Hnone.
  reflexivity.
Qed.

End detach_offloading.

(** X4 on the deployment: at A, for t2. *)
Lemma on_offloading_message_as_detach_at_A :
  has_free_resource A t2 = false ∧
  on_offloading_message dotted A (offload t2) idle =
  (base_station_dispatching_record dotted A "t2";;
   detach A (non_dispatched_bs dotted t2)
     (λ address port, write (offload t2) address port)
     (λ address port,
        write (to_packet (type message_handling (from_packet (offload t2)))) address port;;
        base_station_erase_dispatching_record A "t2")) idle.
Proof.
  split; [reflexivity|].
  exact (on_offloading_message_as_detach dotted A (offload t2) idle eq_refl).
Defined.

(** ** link_cloud *)

Lemma for_each_link_cloud_initialized range cs :
  cs_IsInitialized cs = true →
  for_each_link_cloud range cs =
  returns (map (λ bs, {| get_address := get_address bs;
                         get_port := get_port bs;
                         m_edge_devices := m_edge_devices bs;
                         m_cs_address := (cs_get_address cs, cs_get_port cs) |}) range).
Proof.
  intros Hinit. induction range as [|bs rest IH]; simpl; [done|].
  unfold base_station_link_cloud. rewrite Hinit, IH. done.
Qed.

(** X5: [base_station_container::link_cloud] links all stations or none.
    With an initialized cloud address every station gets that address and
    port as its cloud address and nothing else changes, the dispatching
    record included; with an uninitialized one the process exits with
    status 0 at the first station; on an empty container the call returns
    without looking at the cloud server. *)
Theorem link_cloud_all_or_exit c cs :
  (cs_IsInitialized cs = true →
   link_cloud c cs =
   returns {| m_base_stations :=
                map (λ bs, {| get_address := get_address bs;
                              get_port := get_port bs;
                              m_edge_devices := m_edge_devices bs;
                              m_cs_address := (cs_get_address cs, cs_get_port cs) |})
                    (m_base_stations c);
              m_dispatching_record := m_dispatching_record c |}) ∧
  (cs_IsInitialized cs = false → m_base_stations c ≠ [] → link_cloud c cs = exits 0) ∧
  (m_base_stations c = [] → link_cloud c cs = returns c).
Proof.
  unfold link_cloud. split; [|split].
  - intros Hinit. by rewrite for_each_link_cloud_initialized.
  - intros Hinit Hne. destruct (m_base_stations c) as [|bs rest]; [done|].
    simpl. unfold base_station_link_cloud. by rewrite Hinit.
  - intros Hnil. rewrite Hnil. simpl. destruct c as [range record].
    simpl in Hnil. by subst range.
Qed.

Lemma link_cloud_returns c cs c' :
  link_cloud c cs = returns c' →
  ∀ bs, bs ∈ m_base_stations c' →
    m_cs_address bs = (cs_get_address cs, cs_get_port cs).
Proof.
  unfold link_cloud.
  destruct (for_each_link_cloud (m_base_stations c) cs) as [range|] eqn:Hrange; [|done].
  intros [= <-]. simpl.
  revert range Hrange. generalize (m_base_stations c).
  intros l. induction l as [|b rest IH]; simpl; intros range Hrange bs Hbs.
  - injection Hrange as <-. by apply elem_of_nil in Hbs.
  - unfold base_station_link_cloud in Hrange.
    destruct (cs_IsInitialized cs); simpl in Hrange; [|done].
    destruct (for_each_link_cloud rest cs) as [rest'|] eqn:Hrest; [|done].
    injection Hrange as <-.
    apply elem_of_cons in Hbs as [->|Hbs]; [done|]. by apply (IH rest').
Qed.

(** X6: once [link_cloud] has returned, a call of [on_dispatching_message]
    at a station of the container with at least one device connected
    returns, and the last datagram it writes is a notice to the address and
    port of that cloud server: dispatch success after a match, dispatch
    failure otherwise. *)
Theorem dispatching_notice_to_linked_cloud c cs c' this packet s :
  link_cloud c cs = returns c' →
  this ∈ m_base_stations c' →
  m_edge_devices this ≠ [] →
  (on_dispatching_message this packet s).1 = Some tt ∧
  ∃ dg, last (written s (on_dispatching_message this packet s).2) = Some dg ∧
        destination dg = cs_get_address cs ∧
        destination_port dg = cs_get_port cs ∧
        to_task (from_packet (payload dg)) = to_task (from_packet packet) ∧
        msg_type (from_packet (payload dg)) =
          if has_free_resource this (to_task (from_packet packet))
          then message_dispatching_success else message_dispatching_failure.
Proof.
  intros Hlink Hin Hdevices.
  pose proof (link_cloud_returns c cs c' Hlink this Hin) as Hcs.
  rewrite on_dispatching_message_find.
  unfold has_free_resource. rewrite has_free_resource_from_find.
  destruct (m_edge_devices this) as [|device0 rest] eqn:Hlist; [done|].
  split; [done|]. cbn [snd]. rewrite written_app.
  destruct (List.find _ _) as [o|].
  - exists (to_cloud message_dispatching_success (from_packet packet) this).
    unfold to_cloud. rewrite Hcs. simpl. done.
  - exists (to_cloud message_dispatching_failure (from_packet packet) this).
    unfold to_cloud. rewrite Hcs. simpl. done.
Qed.

(** ** The constructor of the container *)

Lemma emplace_back_from_seq make_shared rounds : ∀ i range,
  emplace_back_from make_shared i rounds range =
  range ++ map make_shared (seq i rounds).
Proof.
  induction rounds as [|rounds IH]; intros i range; simpl.
  - by rewrite app_nil_r.
  - by rewrite IH, <- app_assoc.
Qed.

(** X7: a container constructed for [n] stations has size [n], [get]
    returns at every index below [n] the station made in that round, and
    nothing is recorded: [dispatched] answers [true] for every task id and
    address. *)
Theorem base_station_container_of_size make_shared (n : N) :
  size (base_station_container_of make_shared n) = n ∧
  (∀ index, (index < n)%N →
     get (base_station_container_of make_shared n) index =
     returned (make_shared (N.to_nat index))) ∧
  (∀ task_id bs_ip,
     dispatched task_id bs_ip (base_station_container_of make_shared n) = true).
Proof.
  assert (m_base_stations (base_station_container_of make_shared n) =
          map make_shared (seq 0 (N.to_nat n))) as Hrange.
  { simpl. by rewrite emplace_back_from_seq. }
  assert (size (base_station_container_of make_shared n) = n) as Hsize.
  { unfold size. rewrite Hrange, length_map, length_seq. lia. }
  split; [done|]. split; [|done].
  intros index Hlt. unfold get. rewrite Hsize.
  destruct (N.ltb_spec n index) as [?|_]; [lia|].
  rewrite Hrange, list_lookup_fmap, lookup_seq_lt by lia. done.
Qed.

(** X5 and X6 on the deployment: linking the three stations to the
    installed cloud server returns, linking them to one without a network
    exits, and the failure notice of A for t2 goes to the cloud server. *)
Example link_cloud_deployment :
  link_cloud stations cloud_servers.installed = returns stations ∧
  link_cloud stations cloud_servers.fresh = exits 0.
Proof. by vm_compute. Qed.

Lemma dispatching_notice_to_linked_cloud_at_A :
  link_cloud stations cloud_servers.installed = returns stations ∧
  A ∈ m_base_stations stations ∧
  m_edge_devices A ≠ [] ∧
  (on_dispatching_message A (request t2) idle).1 = Some tt ∧
  ∃ dg, last (written idle (on_dispatching_message A (request t2) idle).2) = Some dg ∧
        destination dg = 167772417%N ∧
        destination_port dg = 8860%N ∧
        to_task (from_packet (payload dg)) = t2 ∧
        msg_type (from_packet (payload dg)) = message_dispatching_failure.
Proof.
  assert (A ∈ m_base_stations stations) as Hin by (apply elem_of_cons; by left).
  assert (m_edge_devices A ≠ []) as Hdevices by done.
  split; [reflexivity|]. split; [exact Hin|]. split; [exact Hdevices|].
  exact (dispatching_notice_to_linked_cloud stations cloud_servers.installed stations
           A (request t2) idle eq_refl Hin Hdevices).
Defined.

(** ** What the handlers write *)

Section handlers_write.

Variable format_ip : Ipv4Address → string.

(** X8: every datagram a handler writes carries the task of the packet it
    received.  [on_dispatching_message] writes only handling, dispatch
    success and dispatch failure messages; [on_offloading_message] appends
    exactly one datagram per call, the received packet itself or a handling
    message, and leaves the list of stations as it was. *)
Theorem handlers_carry_the_task this packet s :
  Forall (λ dg,
      to_task (from_packet (payload dg)) = to_task (from_packet packet) ∧
      (msg_type (from_packet (payload dg)) = message_handling ∨
       msg_type (from_packet (payload dg)) = message_dispatching_success ∨
       msg_type (from_packet (payload dg)) = message_dispatching_failure))
    (written s (on_dispatching_message this packet s).2) ∧
  ∃ dg,
    network (on_offloading_message format_ip this packet s).2 = network s ++ [dg] ∧
    to_task (from_packet (payload dg)) = to_task (from_packet packet) ∧
    (payload dg = packet ∨ msg_type (from_packet (payload dg)) = message_handling) ∧
    m_base_stations (base_stations (on_offloading_message format_ip this packet s).2) =
      m_base_stations (base_stations s).
Proof.
  split.
  - rewrite on_dispatching_message_find.
    destruct (m_edge_devices this) as [|device0 rest]; cbn [snd].
    { unfold written. rewrite drop_all. by apply Forall_nil. }
    rewrite written_app.
    destruct (List.find _ _);
      repeat (apply Forall_cons; split; [simpl; auto 6|]); by apply Forall_nil.
  - rewrite (on_offloading_message_find format_ip this packet s). cbv zeta. cbn [snd].
    destruct (List.find (fits _) _) as [o|].
    + eexists. split; [done|]. simpl. auto.
    + destruct (List.find _ _) as [bs|]; eexists; (split; [done|]); simpl; auto.
Qed.

(** X9: [has_free_resource] tells what both handlers do.  When it answers
    [true], both write a message tagged as handling to the same device, one
    that is connected and satisfies the task.  When it answers [false],
    [on_dispatching_message] writes only the failure notice if a device is
    connected and stops at its log line, writing nothing, if none is, and
    [on_offloading_message] writes to a station of the container or, a
    message tagged as handling, to the cloud address. *)
Theorem has_free_resource_decides this packet s :
  let msg := from_packet packet in
  let t := to_task msg in
  let offloading := written s (on_offloading_message format_ip this packet s).2 in
  (has_free_resource this t = true ∧
   ∃ o, o ∈ m_edge_devices this ∧ satisfies_spec o t ∧
        on_dispatching_message this packet s =
          (Some tt,
           {| base_stations := base_stations s;
              network := network s ++
                [Datagram (to_packet {| msg_type := message_handling; to_task := t |})
                   (dev_address o) (dev_port o);
                 Datagram (to_packet {| msg_type := message_dispatching_success;
                                        to_task := t |})
                   (m_cs_address this).1 (m_cs_address this).2] |}) ∧
        offloading =
          [Datagram (to_packet {| msg_type := message_handling; to_task := t |})
             (dev_address o) (dev_port o)]) ∨
  (has_free_resource this t = false ∧
   (m_edge_devices this ≠ [] →
    on_dispatching_message this packet s =
      (Some tt,
       {| base_stations := base_stations s;
          network := network s ++
            [Datagram (to_packet {| msg_type := message_dispatching_failure;
                                    to_task := t |})
               (m_cs_address this).1 (m_cs_address this).2] |})) ∧
   (m_edge_devices this = [] → on_dispatching_message this packet s = (None, s)) ∧
   ((∃ bs, bs ∈ m_base_stations (base_stations s) ∧
           offloading = [Datagram packet (get_address bs) (get_port bs)]) ∨
    offloading =
      [Datagram (to_packet {| msg_type := message_handling; to_task := t |})
         (m_cs_address this).1 (m_cs_address this).2])).
Proof.
  intros msg t offloading. subst offloading.
  rewrite on_dispatching_message_find,
    (on_offloading_message_find format_ip this packet s).
  cbv zeta. cbn [snd]. fold msg t.
  unfold has_free_resource. rewrite has_free_resource_from_find.
  destruct (List.find (fits t) (m_edge_devices this)) as [o|] eqn:Hdev.
  - left. split; [by apply bool_decide_eq_true_2; eauto|]. exists o.
    apply find_split in Hdev as (before & after & Hsplit & _ & Ho).
    rewrite !written_app. split; [|split; [by apply fits_satisfies|]].
    + rewrite Hsplit. apply elem_of_app. right. apply elem_of_cons. by left.
    + split; [|done]. rewrite Hsplit. by destruct before.
  - right. split; [apply bool_decide_eq_false_2; by intros [? ?]|].
    split; [by destruct (m_edge_devices this)|].
    split; [by intros ->|].
    destruct (List.find _ (m_base_stations (dispatching_record _ _ _))) as [bs|] eqn:Hbs;
      rewrite written_app; [|by right].
    left. exists bs. split; [|done].
    apply find_split in Hbs as (before & after & Hsplit & _). simpl in Hsplit.
    rewrite Hsplit. apply elem_of_app. right. apply elem_of_cons. by left.
Qed.

End handlers_write.

(** ** The offload path, continued *)

Section offload_runs.

Variable format_ip : Ipv4Address → string.

Lemma pending_recorded_lt task_id bs c :
  bs ∈ m_base_stations c →
  dispatched task_id (format_ip (get_address bs)) c = false →
  length (pending format_ip task_id c) < length (m_base_stations c).
Proof.
  unfold pending. induction (m_base_stations c) as [|b l IH]; intros Hin Hbs.
  - by apply elem_of_nil in Hin.
  - apply elem_of_cons in Hin as [<-|Hin]; simpl.
    + rewrite Hbs.
      pose proof (List.filter_length_le
        (λ b, dispatched task_id (format_ip (get_address b)) c) l) as Hle.
      lia.
    + specialize (IH Hin Hbs).
      destruct (dispatched task_id (format_ip (get_address b)) c); simpl; lia.
Qed.

Lemma dispatched_before_record task_id bs_ip task_id' bs_ip' c :
  dispatched task_id' bs_ip' (dispatching_record task_id bs_ip c) = true →
  dispatched task_id' bs_ip' c = true.
Proof.
  intros Hafter. destruct (dispatched task_id' bs_ip' c) eqn:Hc; [done|].
  by rewrite (dispatched_record_mono task_id bs_ip _ _ c Hc) in Hafter.
Qed.

(** X10: when the station that first handles an offloading message is one
    of the N stations of the container, N calls of [on_offloading_message]
    resolve the task: the first call records a station of the list. *)
Theorem offloading_terminates_within_size this packet s :
  msg_type (from_packet packet) = message_offloading_task →
  this ∈ m_base_stations (base_stations s) →
  ∃ path s',
    offloading format_ip (length (m_base_stations (base_stations s))) this packet s =
      Some (path, s') ∧
    length path ≤ length (m_base_stations (base_stations s)) ∧
    ∃ final, last path = Some final ∧ resolved final packet s'.
Proof.
  intros Htype Hin.
  destruct (offloading_within format_ip (length (m_base_stations (base_stations s)))
              this packet s Htype) as (path & s' & Hrun & Hlen & final & Hlast & Hres & _).
  { apply (pending_recorded_lt _ this
             (dispatching_record _ (format_ip (get_address this)) (base_stations s)));
      [done|apply dispatched_recorded]. }
  exists path, s'. split; [done|]. split; [done|]. by exists final.
Qed.

(** The stations a run passes after the first were not recorded when the
    first had recorded itself, and a run only changes the entries of its
    own task id. *)
Lemma offloading_path steps : ∀ this packet s path s',
  offloading format_ip steps this packet s = Some (path, s') →
  let task_id := id (to_task (from_packet packet)) in
  let c := dispatching_record task_id (format_ip (get_address this)) (base_stations s) in
  ∃ rest,
    path = this :: rest ∧
    Forall (λ b, b ∈ m_base_stations (base_stations s) ∧
                 dispatched task_id (format_ip (get_address b)) c = true) rest ∧
    NoDup (get_address <$> path) ∧
    m_base_stations (base_stations s') = m_base_stations (base_stations s) ∧
    ∀ other, other ≠ task_id →
      equal_range other (m_dispatching_record (base_stations s')) =
      equal_range other (m_dispatching_record (base_stations s)).
Proof.
  induction steps as [|steps IH]; intros this packet s path s' Hrun; [done|].
  simpl in Hrun. intros task_id c.
  assert (m_base_stations (base_stations (on_offloading_message format_ip this packet s).2) =
          m_base_stations (base_stations s)) as Hstations.
  { rewrite (on_offloading_message_find format_ip this packet s). cbv zeta. cbn [snd].
    destruct (List.find (fits _) _); [done|]. by destruct (List.find _ _). }
  assert (∀ other, other ≠ task_id →
            equal_range other (m_dispatching_record
              (base_stations (on_offloading_message format_ip this packet s).2)) =
            equal_range other (m_dispatching_record (base_stations s))) as Hothers.
  { intros other Hne. apply on_offloading_message_other_id. by intros <-. }
  destruct (forwarded s _) as [[next packet']|] eqn:Hfw.
  - destruct (offloading format_ip steps next packet' _) as [[path' s'']|] eqn:Hnext;
      [|done].
    injection Hrun as <- <-.
    apply forwarded_peer in Hfw as (-> & Hc & Hin & Hpending).
    fold task_id c in Hc, Hin, Hpending.
    apply IH in Hnext as (rest' & -> & Hrest & Hdup & Hsame & Hframe).
    fold task_id in Hrest, Hframe. rewrite Hc in Hrest, Hframe, Hsame.
    exists (next :: rest'). split; [done|].
    assert (Forall (λ b, b ∈ m_base_stations (base_stations s) ∧
                         dispatched task_id (format_ip (get_address b)) c = true)
              (next :: rest')) as Hall.
    { apply Forall_cons. split; [done|].
      eapply Forall_impl; [exact Hrest|]. intros b [Hb Hbp]. split; [done|].
      by apply dispatched_before_record in Hbp. }
    split; [done|]. split; [|split].
    + rewrite fmap_cons. apply NoDup_cons. split; [|done].
      intros Hthis. apply list_elem_of_fmap in Hthis as (b & Haddr & Hb).
      rewrite Forall_forall in Hall. destruct (Hall b Hb) as [_ Hbp].
      rewrite <- Haddr in Hbp. unfold c in Hbp.
      by rewrite dispatched_recorded in Hbp.
    + done.
    + intros other Hne. rewrite (Hframe other Hne). unfold c. simpl.
      by rewrite equal_range_emplace, decide_False.
  - injection Hrun as <- <-. exists []. split; [done|]. split; [by apply Forall_nil|].
    split; [|done]. simpl. apply NoDup_singleton.
Qed.

(** X11: in a run of the offload path no station handles the task twice:
    the stations of the path have pairwise different addresses, the path
    starts at the station that received the task and continues through
    stations of the container. *)
Theorem offloading_path_distinct steps this packet s path s' :
  offloading format_ip steps this packet s = Some (path, s') →
  head path = Some this ∧
  NoDup (get_address <$> path) ∧
  Forall (λ b, b ∈ m_base_stations (base_stations s)) (tail path) ∧
  length path ≤ steps.
Proof.
  intros Hrun.
  destruct (offloading_path steps this packet s path s' Hrun)
    as (rest & -> & Hrest & Hdup & _).
  split; [done|]. split; [done|]. split.
  - simpl. eapply Forall_impl; [exact Hrest|]. by intros b [? _].
  - clear Hrest Hdup. revert this packet s rest s' Hrun.
    induction steps as [|steps IH]; intros this packet s rest s' Hrun; [done|].
    simpl in Hrun. destruct (forwarded s _) as [[next packet']|].
    + destruct (offloading format_ip steps next packet' _) as [[path' s'']|] eqn:Hnext;
        [|done].
      injection Hrun as <- <-.
      destruct (offloading_path steps _ _ _ _ _ Hnext) as (rest' & -> & _).
      apply IH in Hnext. simpl in *. lia.
    + injection Hrun as <- <-. simpl. lia.
Qed.

(** X12: a run of the offload path for one task changes nothing for the
    others: the entries recorded under every other task id, and the list
    of stations, are after the run what they were before. *)
Theorem offloading_keeps_other_tasks steps this packet s path s' :
  offloading format_ip steps this packet s = Some (path, s') →
  m_base_stations (base_stations s') = m_base_stations (base_stations s) ∧
  ∀ other bs_ip, other ≠ id (to_task (from_packet packet)) →
    equal_range other (m_dispatching_record (base_stations s')) =
      equal_range other (m_dispatching_record (base_stations s)) ∧
    dispatched other bs_ip (base_stations s') = dispatched other bs_ip (base_stations s).
Proof.
  intros Hrun.
  destruct (offloading_path steps this packet s path s' Hrun)
    as (_ & _ & _ & _ & Hsame & Hframe).
  split; [done|]. intros other bs_ip Hne. unfold dispatched.
  by rewrite (Hframe other Hne).
Qed.

(** X13: a station that has marked itself for a task through
    [base_station::dispatching_record] is skipped by the scan of every
    station: no call of [on_offloading_message] for that task forwards to
    its address until the record of the task is erased. *)
Theorem marked_station_is_skipped marked this packet s next packet' :
  let task_id := id (to_task (from_packet packet)) in
  let s1 := (base_station_dispatching_record format_ip marked task_id s).2 in
  forwarded s1 (on_offloading_message format_ip this packet s1).2 = Some (next, packet') →
  get_address next ≠ get_address marked ∧
  dispatched task_id (format_ip (get_address marked))
    (base_stations (on_offloading_message format_ip this packet s1).2) = false ∧
  ∀ other, (base_station_dispatched other task_id
              (format_ip (get_address marked)) s1).1 = false.
Proof.
  intros task_id s1 Hfw.
  apply forwarded_peer in Hfw as (_ & Hc & _ & Hpending). fold task_id in Hc, Hpending.
  assert (dispatched task_id (format_ip (get_address marked))
            (dispatching_record task_id (format_ip (get_address this)) (base_stations s1))
          = false) as Hmarked.
  { apply dispatched_record_mono. apply dispatched_recorded. }
  split; [|split].
  - intros Heq. rewrite Heq in Hpending. congruence.
  - by rewrite Hc.
  - intros other. apply dispatched_recorded.
Qed.

(** The three branches of one call, for an offloading message. *)
Lemma on_offloading_message_branches this packet s :
  let t := to_task (from_packet packet) in
  let c := dispatching_record (id t) (format_ip (get_address this)) (base_stations s) in
  let s' := (on_offloading_message format_ip this packet s).2 in
  msg_type (from_packet packet) = message_offloading_task →
  (has_free_resource this t = true ∧ forwarded s s' = None) ∨
  (has_free_resource this t = false ∧ forwarded s s' = None ∧
   Forall (λ b, dispatched (id t) (format_ip (get_address b)) c = false)
     (m_base_stations (base_stations s))) ∨
  (has_free_resource this t = false ∧
   ∃ next, forwarded s s' = Some (next, packet) ∧ base_stations s' = c).
Proof.
  intros t c s' Htype. subst s'.
  rewrite (on_offloading_message_find format_ip this packet s).
  cbv zeta. cbn [snd]. fold t c.
  unfold has_free_resource. rewrite has_free_resource_from_find.
  destruct (List.find (fits t) (m_edge_devices this)) as [o|] eqn:Hdev.
  - left. split; [by apply bool_decide_eq_true_2; eauto|].
    unfold forwarded. by rewrite written_app.
  - right.
    assert (bool_decide (is_Some (@None edge_device)) = false) as ->
      by (apply bool_decide_eq_false_2; by intros [? ?]).
    destruct (List.find _ (m_base_stations c)) as [bs|] eqn:Hbs.
    + right. split; [done|].
      apply find_split in Hbs as (before & after & Hsplit & _).
      assert (bs ∈ m_base_stations c) as Hin.
      { rewrite Hsplit. apply elem_of_app. right. apply elem_of_cons. by left. }
      destruct (receiver_forward_to packet bs c Htype Hin) as (next & Hnext & _).
      exists next. unfold forwarded. rewrite written_app. simpl. by rewrite Hnext.
    + left. split; [done|]. unfold forwarded. rewrite written_app. simpl.
      split; [done|]. by apply find_None_Forall in Hbs.
Qed.

(** X14: the cloud is the last resort.  When a run for a task that had no
    entry in the dispatching record ends at a station without a device for
    the task, no station on the path had one, and every station of the
    container is, by its formatted address, one of the stations on the
    path: none was left out before the task went to the cloud. *)
Theorem cloud_is_last_resort steps this packet s path s' final :
  let t := to_task (from_packet packet) in
  msg_type (from_packet packet) = message_offloading_task →
  equal_range (id t) (m_dispatching_record (base_stations s)) = [] →
  offloading format_ip steps this packet s = Some (path, s') →
  last path = Some final →
  has_free_resource final t = false →
  Forall (λ v, has_free_resource v t = false) path ∧
  Forall (λ b, ∃ v, v ∈ path ∧
                    format_ip (get_address v) = format_ip (get_address b))
    (m_base_stations (base_stations s)).
Proof.
  intros t Htype Hfresh Hrun Hlast Hfinal.
  assert (Forall (λ v, has_free_resource v t = false) path ∧
          Forall (λ b,
              format_ip (get_address b) ∈
                equal_range (id t) (m_dispatching_record (base_stations s)) ∨
              ∃ v, v ∈ path ∧ format_ip (get_address v) = format_ip (get_address b))
            (m_base_stations (base_stations s))) as [Hpath Hall].
  { clear Hfresh. revert this s path Hrun Hlast.
    induction steps as [|steps IH]; intros this s path Hrun Hlast; [done|].
    simpl in Hrun.
    destruct (on_offloading_message_branches this packet s Htype)
      as [(Hfree & Hfw) | [(Hfree & Hfw & Hrec) | (Hfree & next & Hfw & Hc)]];
      fold t in Hfree; rewrite Hfw in Hrun.
    - injection Hrun as <- <-. injection Hlast as <-. congruence.
    - injection Hrun as <- <-. split; [by apply Forall_singleton|].
      fold t in Hrec. eapply Forall_impl; [exact Hrec|]. intros b Hb.
      apply dispatched_range_false in Hb. simpl in Hb.
      rewrite equal_range_emplace, decide_True in Hb by done.
      apply elem_of_app in Hb as [Hb|Hb%list_elem_of_singleton]; [by left|].
      right. exists this. split; [apply elem_of_cons; by left|done].
    - destruct (offloading format_ip steps next packet _) as [[path' s'']|] eqn:Hnext;
        [|done].
      injection Hrun as <- <-.
      assert (last path' = Some final) as Hlast'.
      { destruct (offloading_path steps _ _ _ _ _ Hnext) as (rest & -> & _).
        by rewrite last_cons_cons in Hlast. }
      destruct (IH next _ path' Hnext Hlast') as [Hpath' Hall'].
      split; [by apply Forall_cons|].
      fold t in Hc. rewrite Hc in Hall'. simpl in Hall'.
      eapply Forall_impl; [exact Hall'|]. intros b [Hb|(v & Hv & Heq)].
      + rewrite equal_range_emplace, decide_True in Hb by done.
        apply elem_of_app in Hb as [Hb|Hb%list_elem_of_singleton]; [by left|].
        right. exists this. split; [apply elem_of_cons; by left|done].
      + right. exists v. split; [apply elem_of_cons; by right|done]. }
  split; [done|].
  eapply Forall_impl; [exact Hall|]. intros b [Hb|Hb]; [|done].
  rewrite Hfresh in Hb. by apply elem_of_nil in Hb.
Qed.

End offload_runs.

(** X10 on the deployment: from A, three calls. *)
Lemma offloading_terminates_within_size_from_A :
  msg_type (from_packet (offload t2)) = message_offloading_task ∧
  A ∈ m_base_stations (base_stations idle) ∧
  ∃ path s',
    offloading dotted 3 A (offload t2) idle = Some (path, s') ∧
    length path ≤ 3 ∧
    ∃ final, last path = Some final ∧ resolved final (offload t2) s'.
Proof.
  assert (A ∈ m_base_stations (base_stations idle)) as Hin
    by (apply elem_of_cons; by left).
  split; [reflexivity|]. split; [exact Hin|].
  exact (offloading_terminates_within_size dotted A (offload t2) idle eq_refl Hin).
Defined.

(** X11 and X12 on the deployment: the run from A. *)
Lemma offloading_path_distinct_from_A :
  head [A; B; C] = Some A ∧
  NoDup (get_address <$> [A; B; C]) ∧
  Forall (λ b, b ∈ m_base_stations (base_stations idle)) (tail [A; B; C]) ∧
  length [A; B; C] ≤ 4.
Proof.
  apply (offloading_path_distinct dotted 4 A (offload t2) idle [A; B; C]
           {| base_stations := stations;
              network := [forward_to (offload t2) B; forward_to (offload t2) C;
                          to_cloud message_handling (from_packet (offload t2)) C] |}).
  by vm_compute.
Defined.

Lemma offloading_keeps_other_tasks_from_A :
  ∃ s', offloading dotted 4 A (offload t2) idle = Some ([A; B; C], s') ∧
        m_base_stations (base_stations s') = m_base_stations (base_stations idle) ∧
        ∀ other bs_ip, other ≠ "t2" →
          equal_range other (m_dispatching_record (base_stations s')) =
            equal_range other (m_dispatching_record (base_stations idle)) ∧
          dispatched other bs_ip (base_stations s') =
            dispatched other bs_ip (base_stations idle).
Proof.
  eexists. split; [by vm_compute|].
  apply (offloading_keeps_other_tasks dotted 4 A (offload t2) idle [A; B; C]).
  by vm_compute.
Defined.

(** X13 on the deployment: with B marked for t2, A forwards to C. *)
Lemma marked_station_is_skipped_B :
  forwarded (base_station_dispatching_record dotted B "t2" idle).2
    (on_offloading_message dotted A (offload t2)
       (base_station_dispatching_record dotted B "t2" idle).2).2 =
    Some (C, offload t2) ∧
  get_address C ≠ get_address B.
Proof.
  assert (forwarded (base_station_dispatching_record dotted B "t2" idle).2
            (on_offloading_message dotted A (offload t2)
               (base_station_dispatching_record dotted B "t2" idle).2).2 =
          Some (C, offload t2)) as Hfw by (by vm_compute).
  split; [exact Hfw|].
  exact (proj1 (marked_station_is_skipped dotted B A (offload t2) idle C (offload t2) Hfw)).
Defined.

(** X14 on the deployment: the run from A ends at C, which has no device
    for t2; A, B and C had none, and they are all the stations. *)
Lemma cloud_is_last_resort_from_A :
  Forall (λ v, has_free_resource v t2 = false) [A; B; C] ∧
  Forall (λ b, ∃ v, v ∈ [A; B; C] ∧ dotted (get_address v) = dotted (get_address b))
    (m_base_stations (base_stations idle)).
Proof.
  apply (cloud_is_last_resort dotted 4 A (offload t2) idle [A; B; C]
           {| base_stations := stations;
              network := [forward_to (offload t2) B; forward_to (offload t2) C;
                          to_cloud message_handling (from_packet (offload t2)) C] |} C).
  - reflexivity.
  - by vm_compute.
  - by vm_compute.
  - reflexivity.
  - reflexivity.
Defined.
